(** * StudyFlow: the streak tracker, the Pomodoro engine and the task store

    A shallow embedding of [script.js].  The script keeps one global
    object [state] and mutates it from event handlers; here the object,
    the few pieces of the page that the handlers read back, the browser's
    table of live intervals and the trace of observable calls are gathered
    in one record [World], and every handler is a function [World -> World].

    Numbers are integers ([Z]); dates are the strings the script compares.

    The development has two layers.  The first ([step], [Reachable]) follows
    the handlers over one load of the page and leaves rendering out; the call
    [updateStreak(false)] that [initializeApp] makes is an event of its own
    there.  The second ([pageStep], [PageReachable]) adds what the first
    leaves out of the state's life: [renderTasks], which sorts [state.tasks]
    in place when no filter and no search text is set, [saveNotes], and
    [loadState] with [initializeApp], so that a world is followed over
    renderings and over any number of loads.  [updateTimerDisplay],
    [updateMotivationMessage] and [formatDateToISOString] are modelled by the
    text they produce.  [renderCalendar], [renderGoals],
    [checkUrgentReminders], colours and button visibility write nothing that
    is read back and are left out, and so are the handlers of the calendar
    and [mockLogProgress]; [editTask] only fills the form, whose fields are
    the arguments of the submit handler. *)

From stdpp Require Import gmap strings list.
From Stdlib Require Import ZArith String Ascii List Lia DecimalString.
Import ListNotations.
Local Open Scope Z_scope.
Local Open Scope string_scope.

(** ** Data model *)

(** One entry of [state.tasks]. *)
Record Task := mkTask {
  id : Z;
  title : string;
  subject : string;
  category : string;
  deadline : string;
  priority : string;
  status : string
}.

(** One value of the [state.goals] object. *)
Record Goal := mkGoal {
  totalGoal : Z;
  hoursLogged : Z
}.

(** [state.streak]; a date is a [YYYY-MM-DD] string or [null]. *)
Record Streak := mkStreak {
  count : Z;
  lastCompletionDate : option string;
  lastRewardedDay : option string
}.

(** [state.pomodoro]; [intervalId] is the handle last returned by
    [setInterval], [None] standing for the initial [null]. *)
Record Pomodoro := mkPomodoro {
  time : Z;
  mode : string;
  running : bool;
  intervalId : option nat
}.

Record Profile := mkProfile {
  major : string;
  level : string
}.

(** The document [saveState] serialises under [APP_STORAGE_KEY]. *)
Record Snapshot := mkSnapshot {
  snap_tasks : list Task;
  snap_notes : string;
  snap_theme : string;
  snap_goals : gmap string Goal;
  snap_userName : string;
  snap_streak : Streak;
  snap_academicProfile : Profile
}.

(** The calls of [showModal], one constructor per call site, carrying the
    values interpolated into the title and body. *)
Inductive Modal :=
| ModalTaskUpdated (title : string)
| ModalTaskAdded (title deadline : string)
| ModalTaskDeleted
| ModalStatusUpdate (title status : string)
| ModalProfileUpdated (newName : string)
| ModalNameError
| ModalProfileSaved
| ModalMilestone (milestone : Z)
| ModalGoalSet (subject : string) (hours : Z)
| ModalTimerDone (message : string).

(** Observable calls, most recent first: a modal shown, the text written
    to the [stat-streak] element, a document written to local storage. *)
Inductive Effect :=
| ShowModal (m : Modal)
| SetStreakText (n : Z)
| SaveState (doc : Snapshot).

Record World := mkWorld {
  tasks : list Task;
  notes : string;
  theme : string;
  goals : gmap string Goal;
  streak : Streak;
  pomodoro : Pomodoro;
  userName : string;
  academicProfile : Profile;
  (** [textContent] of the [reset-btn] element, which [resetTimer] reads *)
  resetBtnText : string;
  (** handles of the intervals the browser still fires *)
  liveIntervals : list nat;
  (** the handle the next [setInterval] returns *)
  nextHandle : nat;
  effects : list Effect
}.

(** What the two date expressions of [updateStreak] evaluate to at one
    reading of the clock: [new Date().toISOString().slice(0, 10)] and the
    same for a date moved back by [setDate(getDate() - 1)].  Both are
    ten-character strings; nothing else is assumed of them. *)
Record Clock := mkClock {
  todayString : string;
  yesterdayString : string;
  today_len : String.length todayString = 10%nat;
  yesterday_len : String.length yesterdayString = 10%nat
}.

Definition STREAK_MILESTONES : list Z := [5; 10; 20; 50; 100].

(** ** Field updates *)

Definition set_tasks (v : list Task) (w : World) : World :=
  mkWorld v (notes w) (theme w) (goals w) (streak w) (pomodoro w) (userName w)
    (academicProfile w) (resetBtnText w) (liveIntervals w) (nextHandle w) (effects w).

Definition set_theme (v : string) (w : World) : World :=
  mkWorld (tasks w) (notes w) v (goals w) (streak w) (pomodoro w) (userName w)
    (academicProfile w) (resetBtnText w) (liveIntervals w) (nextHandle w) (effects w).

Definition set_goals (v : gmap string Goal) (w : World) : World :=
  mkWorld (tasks w) (notes w) (theme w) v (streak w) (pomodoro w) (userName w)
    (academicProfile w) (resetBtnText w) (liveIntervals w) (nextHandle w) (effects w).

Definition set_streak (v : Streak) (w : World) : World :=
  mkWorld (tasks w) (notes w) (theme w) (goals w) v (pomodoro w) (userName w)
    (academicProfile w) (resetBtnText w) (liveIntervals w) (nextHandle w) (effects w).

Definition set_pomodoro (v : Pomodoro) (w : World) : World :=
  mkWorld (tasks w) (notes w) (theme w) (goals w) (streak w) v (userName w)
    (academicProfile w) (resetBtnText w) (liveIntervals w) (nextHandle w) (effects w).

Definition set_userName (v : string) (w : World) : World :=
  mkWorld (tasks w) (notes w) (theme w) (goals w) (streak w) (pomodoro w) v
    (academicProfile w) (resetBtnText w) (liveIntervals w) (nextHandle w) (effects w).

Definition set_academicProfile (v : Profile) (w : World) : World :=
  mkWorld (tasks w) (notes w) (theme w) (goals w) (streak w) (pomodoro w) (userName w)
    v (resetBtnText w) (liveIntervals w) (nextHandle w) (effects w).

Definition set_resetBtnText (v : string) (w : World) : World :=
  mkWorld (tasks w) (notes w) (theme w) (goals w) (streak w) (pomodoro w) (userName w)
    (academicProfile w) v (liveIntervals w) (nextHandle w) (effects w).

Definition set_liveIntervals (v : list nat) (w : World) : World :=
  mkWorld (tasks w) (notes w) (theme w) (goals w) (streak w) (pomodoro w) (userName w)
    (academicProfile w) (resetBtnText w) v (nextHandle w) (effects w).

Definition set_nextHandle (v : nat) (w : World) : World :=
  mkWorld (tasks w) (notes w) (theme w) (goals w) (streak w) (pomodoro w) (userName w)
    (academicProfile w) (resetBtnText w) (liveIntervals w) v (effects w).

Definition emit (e : Effect) (w : World) : World :=
  mkWorld (tasks w) (notes w) (theme w) (goals w) (streak w) (pomodoro w) (userName w)
    (academicProfile w) (resetBtnText w) (liveIntervals w) (nextHandle w) (e :: effects w).

Definition set_count (n : Z) (w : World) : World :=
  set_streak (mkStreak n (lastCompletionDate (streak w)) (lastRewardedDay (streak w))) w.

Definition set_lastCompletionDate (d : option string) (w : World) : World :=
  set_streak (mkStreak (count (streak w)) d (lastRewardedDay (streak w))) w.

Definition set_lastRewardedDay (d : option string) (w : World) : World :=
  set_streak (mkStreak (count (streak w)) (lastCompletionDate (streak w)) d) w.

Definition set_time (t : Z) (w : World) : World :=
  set_pomodoro (mkPomodoro t (mode (pomodoro w)) (running (pomodoro w)) (intervalId (pomodoro w))) w.

Definition set_mode (m : string) (w : World) : World :=
  set_pomodoro (mkPomodoro (time (pomodoro w)) m (running (pomodoro w)) (intervalId (pomodoro w))) w.

Definition set_running (b : bool) (w : World) : World :=
  set_pomodoro (mkPomodoro (time (pomodoro w)) (mode (pomodoro w)) b (intervalId (pomodoro w))) w.

Definition set_intervalId (h : option nat) (w : World) : World :=
  set_pomodoro (mkPomodoro (time (pomodoro w)) (mode (pomodoro w)) (running (pomodoro w)) h) w.

(** ** JavaScript primitives the handlers rely on *)

(** [a === b] for a date field (string or [null]) against a string. *)
Definition strictEq (a : option string) (b : string) : bool :=
  match a with
  | Some s => String.eqb s b
  | None => false
  end.

(** Truthiness of a string-or-null value: [null] and [''] are falsy. *)
Definition truthy (a : option string) : bool :=
  match a with
  | Some s => negb (String.eqb s "")
  | None => false
  end.

(** [a < b] for a date field against a string: code units compared left
    to right.  The script evaluates it on truthy values only. *)
Definition strLt (a : option string) (b : string) : bool :=
  match a with
  | Some s => String.ltb s b
  | None => false
  end.

(** ** Persistence and modals *)

Definition snapshot (w : World) : Snapshot :=
  mkSnapshot (tasks w) (notes w) (theme w) (goals w) (userName w) (streak w)
    (academicProfile w).

Definition saveState (w : World) : World := emit (SaveState (snapshot w)) w.

Definition showModal (m : Modal) (w : World) : World := emit (ShowModal m) w.

(** The literal assigned to [state] when the script is loaded;
    [resetLabel] is the text the page gives the reset button. *)
Definition initialWorld (resetLabel : string) : World :=
  mkWorld [] "" "light" ∅ (mkStreak 0 None None)
    (mkPomodoro 1500 "study" false None) "" (mkProfile "" "undergrad")
    resetLabel [] 1%nat [].

(** ** Streak *)

Definition checkStreakMilestones (cnt : Z) (today : string) (w : World) : World :=
  let lastRewarded := lastRewardedDay (streak w) in
  if negb (strictEq lastRewarded today) then
    match List.find (fun m => Z.eqb m cnt) STREAK_MILESTONES with
    | Some milestone =>
        if negb (Z.eqb milestone 0) then
          set_lastRewardedDay (Some today) (showModal (ModalMilestone milestone) w)
        else w
    | None => w
    end
  else w.

Definition updateStreak (isTaskCompleted : bool) (c : Clock) (w : World) : World :=
  let today := todayString c in
  let lastDate := lastCompletionDate (streak w) in
  let w1 :=
    if isTaskCompleted then
      let '(w2, streakIncremented) :=
        if strictEq lastDate today then (w, false)
        else if truthy lastDate then
          if strictEq lastDate (yesterdayString c)
          then (set_count (count (streak w) + 1) w, true)
          else (set_count 1 w, true)
        else (set_count 1 w, true) in
      let w3 := set_lastCompletionDate (Some today) w2 in
      if streakIncremented
      then checkStreakMilestones (count (streak w3)) today w3
      else w3
    else if truthy lastDate then
      if strLt lastDate (yesterdayString c)
      then set_lastRewardedDay None (set_lastCompletionDate None (set_count 0 w))
      else w
    else w in
  saveState (emit (SetStreakText (count (streak w1))) w1).

(** The two uses of [updateStreak]: after a task completion, and at load. *)
Definition recordCompletion (c : Clock) (w : World) : World := updateStreak true c w.
Definition reconcileOnLoad (c : Clock) (w : World) : World := updateStreak false c w.

(** ** Pomodoro timer *)

(** [clearInterval(id)]: the interval stops firing; [null] and handles
    that are no longer live are ignored. *)
Definition clearInterval (h : option nat) (w : World) : World :=
  match h with
  | Some i => set_liveIntervals (List.filter (fun j => negb (Nat.eqb j i)) (liveIntervals w)) w
  | None => w
  end.

Definition pauseTimer (w : World) : World :=
  set_running false (clearInterval (intervalId (pomodoro w)) w).

(** The [switch] of [setPomodoroMode]; [timeInSeconds] keeps its initial 0
    when no case applies. *)
Definition modeDuration (m : string) : Z :=
  if String.eqb m "study" then 1500
  else if String.eqb m "short" then 300
  else if String.eqb m "long" then 900
  else 0.

Definition setPomodoroMode (m : string) (w : World) : World :=
  let w1 := pauseTimer w in
  let w2 := set_mode m w1 in
  set_time (modeDuration m) w2.

(** [nextMode] and [message] as [handleTimerEnd] chooses them. *)
Definition endTransition (m : string) : string * string :=
  if String.eqb m "study" then
    ("short", "Study session complete! Time for a short break. You earned it!")
  else if String.eqb m "short" || String.eqb m "long" then
    ("study", "Break over. Time to focus on the next task!")
  else ("", "").

Definition handleTimerEnd (manualSwitch : bool) (w : World) : World :=
  let '(nextMode, message) := endTransition (mode (pomodoro w)) in
  let w1 := if negb manualSwitch then showModal (ModalTimerDone message) w else w in
  setPomodoroMode nextMode w1.

(** The function [startTimer] passes to [setInterval]. *)
Definition intervalCallback (w : World) : World :=
  let w1 := set_time (time (pomodoro w) - 1) w in
  if Z.leb (time (pomodoro w1)) 0 then
    let w2 := clearInterval (intervalId (pomodoro w1)) w1 in
    let w3 := set_running false w2 in
    let w4 := set_resetBtnText "Next Mode" w3 in
    handleTimerEnd false w4
  else w1.

Definition startTimer (w : World) : World :=
  if running (pomodoro w) then w
  else
    let w1 := set_running true w in
    let w2 := set_resetBtnText "Reset" w1 in
    let h := nextHandle w2 in
    let w3 := set_nextHandle (S h) (set_liveIntervals (liveIntervals w2 ++ [h]) w2) in
    set_intervalId (Some h) w3.

Definition resetTimer (w : World) : World :=
  let w1 := pauseTimer w in
  if String.eqb (resetBtnText w1) "Next Mode" then handleTimerEnd true w1
  else set_resetBtnText "Reset" (setPomodoroMode (mode (pomodoro w1)) w1).

Definition toggleTheme (w : World) : World :=
  let w1 := set_theme (if String.eqb (theme w) "light" then "dark" else "light") w in
  saveState (setPomodoroMode (mode (pomodoro w1)) w1).

(** One second passes: every interval that is live when its turn comes
    runs its callback once. *)
Definition tick (w : World) : World :=
  fold_left
    (fun w' h => if existsb (Nat.eqb h) (liveIntervals w') then intervalCallback w' else w')
    (liveIntervals w) w.

Definition ticks (n : N) (w : World) : World := N.iter n tick w.

(** ** Tasks *)

(** [Math.max(...ids)] for a non-empty argument list. *)
Definition mathMax (x : Z) (xs : list Z) : Z := fold_left Z.max xs x.

Definition getNextTaskId (w : World) : Z :=
  match List.map id (tasks w) with
  | [] => 1
  | x :: xs => mathMax x xs + 1
  end.

(** The hidden [task-id] input as the submit handler reads it: empty,
    text that [parseInt] reads as [n], or other text ([NaN]). *)
Inductive TaskIdField :=
| FieldEmpty
| FieldNumber (n : Z)
| FieldNaN.

Definition editFields (title subject category deadline priority : string) (t : Task) : Task :=
  mkTask (id t) title subject category deadline priority (status t).

Definition taskFormSubmit (field : TaskIdField)
    (title subject category deadline priority : string) (w : World) : World :=
  let w1 :=
    match field with
    | FieldNumber n =>
        match list_find (fun t => id t = n) (tasks w) with
        | Some (taskIndex, _) =>
            showModal (ModalTaskUpdated title)
              (set_tasks
                 (alter (editFields title subject category deadline priority)
                    taskIndex (tasks w)) w)
        | None => w
        end
    | FieldNaN => w
    | FieldEmpty =>
        let newTask :=
          mkTask (getNextTaskId w) title subject category deadline priority "pending" in
        showModal (ModalTaskAdded title deadline) (set_tasks (tasks w ++ [newTask]) w)
    end in
  saveState w1.

Definition deleteTask (i : Z) (w : World) : World :=
  let w1 := set_tasks (List.filter (fun t => negb (Z.eqb (id t) i)) (tasks w)) w in
  showModal ModalTaskDeleted (saveState w1).

Definition setStatus (s : string) (t : Task) : Task :=
  mkTask (id t) (title t) (subject t) (category t) (deadline t) (priority t) s.

Definition toggleTaskStatus (c : Clock) (i : Z) (w : World) : World :=
  match list_find (fun t => id t = i) (tasks w) with
  | None => w
  | Some (k, task) =>
      let wasPending := String.eqb (status task) "pending" in
      let newStatus := if wasPending then "completed" else "pending" in
      let w1 := set_tasks (alter (setStatus newStatus) k (tasks w)) w in
      let w2 := if String.eqb newStatus "completed" then updateStreak true c w1 else w1 in
      showModal (ModalStatusUpdate (title task) newStatus) (saveState w2)
  end.

(** ** Settings and goals *)

Definition isWhiteSpace (a : ascii) : bool :=
  let n := nat_of_ascii a in
  Nat.eqb n 32 || (Nat.leb 9 n && Nat.leb n 13).

Fixpoint trimStart (s : string) : string :=
  match s with
  | String a r => if isWhiteSpace a then trimStart r else s
  | EmptyString => EmptyString
  end.

Fixpoint trimEnd (s : string) : string :=
  match s with
  | String a r =>
      let r' := trimEnd r in
      if isWhiteSpace a && String.eqb r' "" then "" else String a r'
  | EmptyString => EmptyString
  end.

(** [String.prototype.trim] on the white space of the ASCII range. *)
Definition trim (s : string) : string := trimEnd (trimStart s).

Definition saveSettings (type nameInput majorInput levelInput : string) (w : World) : World :=
  let w1 :=
    if String.eqb type "name" then
      let newName := trim nameInput in
      if negb (String.eqb newName "") then
        showModal (ModalProfileUpdated newName) (set_userName newName w)
      else showModal ModalNameError w
    else if String.eqb type "profile" then
      showModal ModalProfileSaved
        (set_academicProfile (mkProfile (trim majorInput) levelInput) w)
    else w in
  saveState w1.

(** The submit handler of [goal-form]; [hours] is the value of
    [parseInt(...)], [None] standing for [NaN].  [state.goals] is read as a
    plain map: a subject that names a property every object inherits is not
    told apart. *)
Definition goalFormSubmit (subject : string) (hours : option Z) (w : World) : World :=
  match hours with
  | Some h =>
      if negb (String.eqb subject "") && Z.ltb 0 h then
        let g :=
          match goals w !! subject with
          | None => mkGoal h 0
          | Some old => mkGoal h (hoursLogged old)
          end in
        showModal (ModalGoalSet subject h) (saveState (set_goals (<[subject := g]> (goals w)) w))
      else w
  | None => w
  end.

(** ** Events *)

(** What can happen to a loaded page: a handler runs, a second passes,
    or [initializeApp] makes its call [updateStreak(false)]. *)
Inductive Event :=
| EvTaskSubmit (field : TaskIdField) (title subject category deadline priority : string)
| EvDeleteTask (i : Z)
| EvToggleTask (c : Clock) (i : Z)
| EvSaveSettings (type nameInput majorInput levelInput : string)
| EvGoalSubmit (subject : string) (hours : option Z)
| EvToggleTheme
| EvStart
| EvPause
| EvReset
| EvSetMode (m : string)
| EvTick
| EvReconcile (c : Clock).

Definition step (e : Event) (w : World) : World :=
  match e with
  | EvTaskSubmit f t s c d p => taskFormSubmit f t s c d p w
  | EvDeleteTask i => deleteTask i w
  | EvToggleTask c i => toggleTaskStatus c i w
  | EvSaveSettings t n m l => saveSettings t n m l w
  | EvGoalSubmit s h => goalFormSubmit s h w
  | EvToggleTheme => toggleTheme w
  | EvStart => startTimer w
  | EvPause => pauseTimer w
  | EvReset => resetTimer w
  | EvSetMode m => setPomodoroMode m w
  | EvTick => tick w
  | EvReconcile c => reconcileOnLoad c w
  end.

Definition run (evs : list Event) (w : World) : World :=
  fold_left (fun w' e => step e w') evs w.

(** A world the page can be in: some events after the script was loaded. *)
Definition Reachable (w : World) : Prop :=
  exists (resetLabel : string) (evs : list Event),
    resetLabel <> "Next Mode" /\ w = run evs (initialWorld resetLabel).

(** ** Vocabulary of the properties *)

(** Several completions recorded one after the other. *)
Definition recordCompletions (cs : list Clock) (w : World) : World :=
  fold_left (fun w' c => recordCompletion c w') cs w.

Definition isMilestoneModal (e : Effect) : bool :=
  match e with ShowModal (ModalMilestone _) => true | _ => false end.

Definition isTimerDone (e : Effect) : bool :=
  match e with ShowModal (ModalTimerDone _) => true | _ => false end.

Definition isModal (e : Effect) : bool :=
  match e with ShowModal _ => true | _ => false end.


(** How many effects of one kind a world has seen. *)
Definition countEffects (p : Effect -> bool) (w : World) : nat :=
  length (List.filter p (effects w)).

(** [count == 0] iff [lastCompletionDate] is null. *)
Definition streakInvariant (s : Streak) : Prop :=
  count s = 0 <-> lastCompletionDate s = None.

(** The invariant together with the bound that makes it inductive. *)
Definition streakWellFormed (s : Streak) : Prop :=
  0 <= count s /\ streakInvariant s.

(** An interval is live exactly while [running], and it is the one
    [intervalId] names. *)
Definition timerInvariant (w : World) : Prop :=
  if running (pomodoro w)
  then exists h, liveIntervals w = [h] /\ intervalId (pomodoro w) = Some h
  else liveIntervals w = [].

(** The event is a tick on which the countdown reaches 0. *)
Definition naturalCompletion (e : Event) (w : World) : bool :=
  match e with
  | EvTick =>
      match liveIntervals w with
      | [] => false
      | _ :: _ => Z.leb (time (pomodoro w) - 1) 0
      end
  | _ => false
  end.

Definition clearsStart (e : Event) : bool :=
  match e with EvStart => true | _ => false end.

Definition clearsStartOrReset (e : Event) : bool :=
  match e with EvStart | EvReset => true | _ => false end.

(** Whether a natural completion has occurred since the last event that
    [clears] selects, along the events [evs] run from [w]. *)
Fixpoint completedSince (clears : Event -> bool) (evs : list Event) (w : World)
    (flag : bool) : bool :=
  match evs with
  | [] => flag
  | e :: rest =>
      let flag' :=
        if naturalCompletion e w then true
        else if clears e then false else flag in
      completedSince clears rest (step e w) flag'
  end.

(** What the timer's handlers read. *)
Definition timerView (w : World) : Pomodoro * string * list nat :=
  (pomodoro w, resetBtnText w, liveIntervals w).

(** The reset button reads 'Next Mode' exactly when [flag] is set, and
    never while the timer runs. *)
Definition resetButtonInvariant (w : World) (flag : bool) : Prop :=
  timerInvariant w /\
  (running (pomodoro w) = true -> flag = false) /\
  (flag = true <-> resetBtnText w = "Next Mode").

(** ** Sample inputs *)

Definition march10 : Clock := mkClock "2024-03-10" "2024-03-09" eq_refl eq_refl.
Definition march11 : Clock := mkClock "2024-03-11" "2024-03-10" eq_refl eq_refl.
Definition march14 : Clock := mkClock "2024-03-14" "2024-03-13" eq_refl eq_refl.

Definition freshWorld : World := initialWorld "Reset".

Definition sampleTask : Task :=
  mkTask 1 "Read chapter 3" "Biology" "Reading" "2024-03-12" "High" "pending".


(** One pending task added, then completed on 10 March. *)
Definition afterFirstCompletion : World :=
  run [EvTaskSubmit FieldEmpty "Read chapter 3" "Biology" "Reading" "2024-03-12" "High";
       EvToggleTask march10 1] freshWorld.


Definition studySessionStarted : World := run [EvStart] freshWorld.

(** A study session run to its end. *)
Definition sessionEvents : list Event := EvStart :: repeat EvTick 1500.

(** ** Further vocabulary *)

(** The countdown stays within the duration of its mode, and above 0 when
    the mode has a duration. *)
Definition timeInRange (w : World) : Prop :=
  0 <= time (pomodoro w) <= modeDuration (mode (pomodoro w)) /\
  (0 < modeDuration (mode (pomodoro w)) -> 1 <= time (pomodoro w)).

(** The theme is one of the two the toggle switches between. *)
Definition themeValid (w : World) : Prop :=
  theme w = "light" \/ theme w = "dark".

(** A break cut short by a pause after 100 seconds. *)
Definition pausedBreak : World :=
  run ([EvSetMode "short"; EvStart] ++ repeat EvTick 100 ++ [EvPause]) freshWorld.

(** A short break with 3 seconds left. *)
Definition breakNearlyOver : World :=
  run ([EvSetMode "short"; EvStart] ++ repeat EvTick 297) freshWorld.

(** ** Dashboard *)

(** The text [updateMotivationMessage] writes to [motivation-message], by
    the branch that chose it; [MotivationDefault] is the text the variable
    is initialised with. *)
Inductive Motivation :=
| MotivationDefault (n : Z)
| MotivationFirstTask
| MotivationRun (n : Z)
| MotivationMilestone (n : Z)
| MotivationMachine (n : Z).

Definition updateMotivationMessage (w : World) : Motivation :=
  let streakCount := count (streak w) in
  if Z.eqb streakCount 0 then MotivationFirstTask
  else if Z.ltb 0 streakCount && Z.ltb streakCount 5 then MotivationRun streakCount
  else if Z.leb 5 streakCount && Z.ltb streakCount 10 then MotivationMilestone streakCount
  else if Z.leb 10 streakCount then MotivationMachine streakCount
  else MotivationDefault streakCount.

(** The number [updateDashboardStats] writes to [stat-pending-tasks]. *)
Definition pendingCount (w : World) : nat :=
  length (List.filter (fun t => String.eqb (status t) "pending") (tasks w)).

(** [totalTasks] and [completedTasks] of [updateProgressTracker]. *)
Definition totalTasks (w : World) : nat := length (tasks w).

Definition completedTasks (w : World) : nat :=
  length (List.filter (fun t => String.eqb (status t) "completed") (tasks w)).

(** Every task is pending or completed, with an id of 1 or more. *)
Definition tasksWellFormed (l : list Task) : Prop :=
  Forall (fun t => (status t = "pending" \/ status t = "completed") /\ 1 <= id t) l.

(** A streak of four days, last completed on 10 March. *)
Definition fourDayStreak : World := set_count 4 afterFirstCompletion.

(** ** White space at the ends of a string *)

Definition startsWithWhiteSpace (s : string) : bool :=
  match s with
  | String a _ => isWhiteSpace a
  | EmptyString => false
  end.



(** A name saved with white space around it. *)
Definition namedWorld : World :=
  run [EvSaveSettings "name" "  Ada Lovelace  " "" ""] freshWorld.

(** ** Local storage *)

(** What [JSON.parse] gives back for a stored document: a field is absent
    ([None], also standing for [null]) or has the type [saveState] writes. *)
Record StoredDoc := mkStoredDoc {
  stored_tasks : option (list Task);
  stored_notes : option string;
  stored_theme : option string;
  stored_goals : option (gmap string Goal);
  stored_userName : option string;
  stored_streak : option Streak;
  stored_academicProfile : option Profile
}.

(** What [loadState] finds under [APP_STORAGE_KEY]: nothing (or the empty
    string), text that makes the [try] block throw, or a document. *)
Inductive Stored :=
| NoItem
| Unparsable
| Parsed (d : StoredDoc).

(** [x || d] for an array or an object: every present value is truthy. *)
Definition orDefault {A : Type} (x : option A) (d : A) : A :=
  match x with
  | Some v => v
  | None => d
  end.

(** [x || d] for a string: the empty string is falsy too. *)
Definition orDefaultString (x : option string) (d : string) : string :=
  match x with
  | Some v => if String.eqb v "" then d else v
  | None => d
  end.

Definition set_notes (v : string) (w : World) : World :=
  mkWorld (tasks w) v (theme w) (goals w) (streak w) (pomodoro w) (userName w)
    (academicProfile w) (resetBtnText w) (liveIntervals w) (nextHandle w) (effects w).

(** [saveNotes], with the text of the notes area. *)
Definition saveNotes (text : string) (w : World) : World :=
  saveState (set_notes text w).

Definition loadState (stored : Stored) (w : World) : World :=
  match stored with
  | Parsed loadedState =>
      let w1 := set_tasks (orDefault (stored_tasks loadedState) []) w in
      let w2 := set_notes (orDefaultString (stored_notes loadedState) "") w1 in
      let w3 := set_theme (orDefaultString (stored_theme loadedState) "light") w2 in
      let w4 := set_goals (orDefault (stored_goals loadedState) ∅) w3 in
      let w5 := set_userName (orDefaultString (stored_userName loadedState) "") w4 in
      let w6 := set_streak (orDefault (stored_streak loadedState) (mkStreak 0 None None)) w5 in
      set_academicProfile
        (orDefault (stored_academicProfile loadedState) (mkProfile "" "undergrad")) w6
  | NoItem | Unparsable => w
  end.

(** A document as [JSON.stringify] writes it and [JSON.parse] reads it
    back: every field is there. *)
Definition storeDoc (d : Snapshot) : StoredDoc :=
  mkStoredDoc (Some (snap_tasks d)) (Some (snap_notes d)) (Some (snap_theme d))
    (Some (snap_goals d)) (Some (snap_userName d)) (Some (snap_streak d))
    (Some (snap_academicProfile d)).

(** The document of the last [saveState] among the effects. *)
Fixpoint lastSaved (l : list Effect) : option Snapshot :=
  match l with
  | [] => None
  | SaveState d :: _ => Some d
  | _ :: rest => lastSaved rest
  end.

(** What storage holds for a page that finds what the last [saveState]
    wrote, and nothing before the first one. *)
Definition storedBy (w : World) : Stored :=
  match lastSaved (effects w) with
  | Some d => Parsed (storeDoc d)
  | None => NoItem
  end.

(** ** Rendering the task list *)

(** What [priorityOrder[p] || 0] evaluates to: a number, or for a name that
    every object inherits ([constructor], [toString], ...) the inherited member
    itself. *)
Inductive PriorityValue :=
| PriorityNumber (n : Z)
| PriorityInherited (key : string).

Definition objectPrototypeKeys : list string :=
  ["constructor"; "__proto__"; "hasOwnProperty"; "isPrototypeOf";
   "propertyIsEnumerable"; "toLocaleString"; "toString"; "valueOf";
   "__defineGetter__"; "__defineSetter__"; "__lookupGetter__"; "__lookupSetter__"].

Definition priorityOrder (p : string) : PriorityValue :=
  if String.eqb p "High" then PriorityNumber 3
  else if String.eqb p "Medium" then PriorityNumber 2
  else if String.eqb p "Low" then PriorityNumber 1
  else if existsb (String.eqb p) objectPrototypeKeys then PriorityInherited p
  else PriorityNumber 0.

(** [String.prototype.toLowerCase] on the letters of the ASCII range. *)
Definition lowerAscii (a : ascii) : ascii :=
  let n := nat_of_ascii a in
  if Nat.leb 65 n && Nat.leb n 90 then ascii_of_nat (n + 32) else a.

Fixpoint toLowerCase (s : string) : string :=
  match s with
  | String a r => String (lowerAscii a) (toLowerCase r)
  | EmptyString => EmptyString
  end.


(** The search box and the status filter, which [renderTasks] reads. *)
Record TaskView := mkTaskView {
  searchInput : string;
  filterStatus : string
}.

Section Page.

(** The text the page gives the reset button. *)
Variable resetLabel : string.

(** [new Date(s)] as a number, [None] for an invalid date. *)
Variable dateValue : string -> option Z.

(** [Array.prototype.sort] with a comparison function, whose result is a
    number or [NaN] ([None]). *)
Variable arraySort : (Task -> Task -> option Z) -> list Task -> list Task.

(** The comparison function of [renderTasks].  Two inherited members are
    [!==] unless they are the same one, and give [NaN] when subtracted. *)
Definition compareTasks (a b : Task) : option Z :=
  if String.eqb (status a) "pending" && String.eqb (status b) "completed" then Some (-1)
  else if String.eqb (status a) "completed" && String.eqb (status b) "pending" then Some 1
  else
    let byDeadline :=
      match dateValue (deadline a), dateValue (deadline b) with
      | Some da, Some db => Some (da - db)
      | _, _ => None
      end in
    match priorityOrder (priority a), priorityOrder (priority b) with
    | PriorityNumber priorityA, PriorityNumber priorityB =>
        if negb (Z.eqb priorityB priorityA) then Some (priorityB - priorityA)
        else byDeadline
    | PriorityInherited keyA, PriorityInherited keyB =>
        if negb (String.eqb keyB keyA) then None else byDeadline
    | _, _ => None
    end.



(** What [renderTasks] does to the state: [sort] works in place, so when
    neither filter has made a new array it is [state.tasks] that is sorted. *)
Definition renderTasks (v : TaskView) (w : World) : World :=
  if negb (String.eqb (filterStatus v) "all") ||
     negb (String.eqb (toLowerCase (searchInput v)) "")
  then w
  else set_tasks (arraySort compareTasks (tasks w)) w.

(** [initializeApp], run by [window.onload]. *)
Definition initializeApp (c : Clock) (v : TaskView) (stored : Stored) (w : World) : World :=
  let w1 := loadState stored w in
  let w2 := setPomodoroMode "study" w1 in
  let w3 := updateStreak false c w2 in
  renderTasks v w3.

(** The state a freshly loaded script starts from; the effects seen so far
    are kept, no interval of an earlier page is live. *)
Definition freshPage (w : World) : World :=
  set_nextHandle (nextHandle w)
    (mkWorld [] "" "light" ∅ (mkStreak 0 None None)
       (mkPomodoro 1500 "study" false None) "" (mkProfile "" "undergrad")
       resetLabel [] 1%nat (effects w)).

(** Whether the handler of the event goes on to call [renderTasks]. *)
Definition rendersTasks (e : Event) (w : World) : bool :=
  match e with
  | EvTaskSubmit _ _ _ _ _ _ => true
  | EvDeleteTask _ => true
  | EvToggleTask _ i =>
      match list_find (fun t => id t = i) (tasks w) with
      | Some _ => true
      | None => false
      end
  | _ => false
  end.

(** What happens to a page: a handler runs, with the rendering it ends in;
    the search box or the filter changes; the notes are edited; the page is
    loaded again. *)
Inductive PageEvent :=
| Handled (v : TaskView) (e : Event)
| ViewChanged (v : TaskView)
| NotesInput (text : string)
| Loaded (c : Clock) (v : TaskView).

Definition pageStep (p : PageEvent) (w : World) : World :=
  match p with
  | Handled v e => if rendersTasks e w then renderTasks v (step e w) else step e w
  | ViewChanged v => renderTasks v w
  | NotesInput text => saveNotes text w
  | Loaded c v => initializeApp c v (storedBy w) (freshPage w)
  end.

Definition runPage (ps : list PageEvent) (w : World) : World :=
  fold_left (fun w' p => pageStep p w') ps w.

(** A world the page can be in, over any number of loads. *)
Definition PageReachable (w : World) : Prop :=
  exists ps : list PageEvent, w = runPage ps (initialWorld resetLabel).

End Page.

(** The saved fields of the state are those of the document, the tasks up
    to their order. *)
Definition sameDocument (d : Snapshot) (w : World) : Prop :=
  Permutation (snap_tasks d) (tasks w) /\
  snap_notes d = notes w /\
  snap_theme d = theme w /\
  snap_goals d = goals w /\
  snap_userName d = userName w /\
  snap_streak d = streak w /\
  snap_academicProfile d = academicProfile w.

(** Storage holds the state: the last document saved, or the initial one
    while nothing has been saved. *)
Definition storageFollowsState (w : World) : Prop :=
  match lastSaved (effects w) with
  | Some d => sameDocument d w
  | None => snapshot w = snapshot (initialWorld "")
  end.

(** What every handler, rendering and load keeps. *)
Definition pageInvariant (w : World) : Prop :=
  storageFollowsState w /\
  List.NoDup (List.map id (tasks w)) /\
  tasksWellFormed (tasks w) /\
  streakWellFormed (streak w) /\
  timerInvariant w /\
  timeInRange w /\
  themeValid w /\
  trim (userName w) = userName w.

(** ** A sort and a date reading for the samples *)

Fixpoint insertSorted (cmp : Task -> Task -> option Z) (x : Task) (l : list Task) : list Task :=
  match l with
  | [] => [x]
  | y :: rest =>
      match cmp x y with
      | Some d => if Z.leb d 0 then x :: l else y :: insertSorted cmp x rest
      | None => x :: l
      end
  end.

Definition insertionSort (cmp : Task -> Task -> option Z) (l : list Task) : list Task :=
  fold_right (insertSorted cmp) [] l.

(** Reads [YYYY-MM-DD] as the number [YYYYMMDD]. *)
Fixpoint digitsValue (s : string) (acc : Z) : option Z :=
  match s with
  | EmptyString => Some acc
  | String a r =>
      let n := nat_of_ascii a in
      if Nat.eqb n 45 then digitsValue r acc
      else if Nat.leb 48 n && Nat.leb n 57
           then digitsValue r (10 * acc + Z.of_nat (n - 48))
           else None
  end.

Definition sampleDateValue (s : string) : option Z :=
  if String.eqb s "" then None else digitsValue s 0.

Definition defaultView : TaskView := mkTaskView "" "all".


(** ** The timer display *)

(** [Number.prototype.toString] of an integer. *)
Definition numberToString (n : Z) : string := NilZero.string_of_int (Z.to_int n).

(** [String.prototype.padStart] with a filler of one character. *)
Definition padStart (targetLength : nat) (fill : ascii) (s : string) : string :=
  (string_of_list_ascii (repeat fill (targetLength - String.length s)) ++ s)%string.

(** The text [updateTimerDisplay] writes to the timer. *)
Definition updateTimerDisplay (w : World) : string :=
  let minutes := time (pomodoro w) / 60 in
  let seconds := Z.rem (time (pomodoro w)) 60 in
  (padStart 2 "0" (numberToString minutes) ++ ":" ++
   padStart 2 "0" (numberToString seconds))%string.

(** Reading a display [MM:SS] back as a number of seconds. *)
Definition digitValue (a : ascii) : option Z :=
  let n := nat_of_ascii a in
  if Nat.leb 48 n && Nat.leb n 57 then Some (Z.of_nat (n - 48)) else None.

Definition displayedSeconds (s : string) : option Z :=
  match s with
  | String m1 (String m2 (String colon (String s1 (String s2 EmptyString)))) =>
      match digitValue m1, digitValue m2, digitValue s1, digitValue s2 with
      | Some a, Some b, Some x, Some y =>
          if Nat.eqb (nat_of_ascii colon) 58
          then Some ((10 * a + b) * 60 + (10 * x + y))
          else None
      | _, _, _, _ => None
      end
  | _ => None
  end.

(** ** Dates *)

(** The local components of a valid [Date] that [formatDateToISOString]
    reads; [getMonth] counts from 0. *)
Record DateParts := mkDateParts {
  getFullYear : Z;
  getMonth : Z;
  getDate : Z
}.

Definition formatDateToISOString (date : DateParts) : string :=
  let year := getFullYear date in
  let month := padStart 2 "0" (numberToString (getMonth date + 1)) in
  let day := padStart 2 "0" (numberToString (getDate date)) in
  (numberToString year ++ "-" ++ month ++ "-" ++ day)%string.

(** ** The order and the search of the task list *)

(** What the comparison of [renderTasks] looks at, for a task it can place:
    0 for pending and 1 for completed, the priority negated (high first), the
    deadline.  A task with another status, with a priority that is no number
    or with a deadline that is no date has no key. *)
Definition sortKey (dateValue : string -> option Z) (t : Task) : option (Z * Z * Z) :=
  match priorityOrder (priority t), dateValue (deadline t) with
  | PriorityNumber n, Some d =>
      if String.eqb (status t) "pending" then Some (0, - n, d)
      else if String.eqb (status t) "completed" then Some (1, - n, d)
      else None
  | _, _ => None
  end.

(** The lexicographic order on keys. *)
Definition keyLt (k1 k2 : Z * Z * Z) : Prop :=
  let '(s1, p1, d1) := k1 in
  let '(s2, p2, d2) := k2 in
  s1 < s2 \/ (s1 = s2 /\ (p1 < p2 \/ (p1 = p2 /\ d1 < d2))).


(** ** A page followed over renderings and a load *)

(** Three tasks added and listed, the third completed. *)
Definition samplePageStart : list PageEvent :=
  [Handled defaultView
     (EvTaskSubmit FieldEmpty "Essay" "History" "Writing" "2024-03-20" "Medium");
   Handled defaultView
     (EvTaskSubmit FieldEmpty "Lab report" "Physics" "Lab" "2024-03-18" "High");
   Handled defaultView
     (EvTaskSubmit FieldEmpty "Quiz" "Maths" "Revision" "2024-03-15" "High");
   Handled defaultView (EvToggleTask march10 3)].

(** Then a name and notes saved, the page loaded the next day, and two
    seconds of a study session. *)
Definition samplePageEvents : list PageEvent :=
  (samplePageStart ++
   [Handled defaultView (EvSaveSettings "name" "  Ada Lovelace  " "" "");
    NotesInput "revise optics";
    Loaded march11 defaultView;
    Handled defaultView EvStart;
    Handled defaultView EvTick;
    Handled defaultView EvTick])%list.

Definition reorderedPage : World :=
  runPage "Reset" sampleDateValue insertionSort samplePageStart freshWorld.

Definition samplePage : World :=
  runPage "Reset" sampleDateValue insertionSort samplePageEvents freshWorld.
(** * Properties *)

(** ** Primitives *)

Lemma strictEq_true (a : option string) (b : string) :
  strictEq a b = true <-> a = Some b.
Proof.
  destruct a as [s|]; simpl.
  - rewrite String.eqb_eq. split; congruence.
  - split; discriminate.
Qed.

Lemma strictEq_false (a : option string) (b : string) :
  strictEq a b = false <-> a <> Some b.
Proof.
  rewrite <- strictEq_true. destruct (strictEq a b); split; congruence.
Qed.

Lemma truthy_date (s : string) : String.length s = 10%nat -> truthy (Some s) = true.
Proof. destruct s; simpl; [discriminate | reflexivity]. Qed.

Lemma ltb_irrefl (s : string) : String.ltb s s = false.
Proof.
  unfold String.ltb. pose proof (String.compare_antisym s s) as H.
  destruct (String.compare s s); simpl in H; congruence.
Qed.

(** ** Streak *)

Section StreakFacts.

Variable c : Clock.

Lemma count_checkStreakMilestones (n : Z) (d : string) (w : World) :
  count (streak (checkStreakMilestones n d w)) = count (streak w).
Proof.
  unfold checkStreakMilestones.
  destruct (negb _); [|reflexivity].
  destruct (List.find _ _) as [m|]; [|reflexivity].
  destruct (negb _); reflexivity.
Qed.

Lemma lastCompletionDate_checkStreakMilestones (n : Z) (d : string) (w : World) :
  lastCompletionDate (streak (checkStreakMilestones n d w)) =
  lastCompletionDate (streak w).
Proof.
  unfold checkStreakMilestones.
  destruct (negb _); [|reflexivity].
  destruct (List.find _ _) as [m|]; [|reflexivity].
  destruct (negb _); reflexivity.
Qed.

Lemma yesterday_truthy (a : option string) :
  strictEq a (yesterdayString c) = true -> truthy a = true.
Proof.
  intros H%strictEq_true. subst a. apply truthy_date, yesterday_len.
Qed.

Lemma count_recordCompletion (w : World) :
  count (streak (recordCompletion c w)) =
  if strictEq (lastCompletionDate (streak w)) (todayString c) then count (streak w)
  else if strictEq (lastCompletionDate (streak w)) (yesterdayString c)
       then count (streak w) + 1
       else 1.
Proof.
  unfold recordCompletion, updateStreak.
  destruct (strictEq _ (todayString c)); [reflexivity|].
  destruct (strictEq _ (yesterdayString c)) eqn:Hy.
  - rewrite (yesterday_truthy _ Hy). simpl. now rewrite count_checkStreakMilestones.
  - destruct (truthy _); simpl; now rewrite count_checkStreakMilestones.
Qed.

Lemma lastCompletionDate_recordCompletion (w : World) :
  lastCompletionDate (streak (recordCompletion c w)) = Some (todayString c).
Proof.
  unfold recordCompletion, updateStreak.
  destruct (strictEq _ (todayString c)); [reflexivity|].
  destruct (truthy _); [destruct (strictEq _ _)|]; simpl;
    now rewrite lastCompletionDate_checkStreakMilestones.
Qed.

Lemma recordCompletion_same_day (w : World) :
  lastCompletionDate (streak w) = Some (todayString c) ->
  streak (recordCompletion c w) = streak w.
Proof.
  intros H. unfold recordCompletion, updateStreak.
  rewrite (proj2 (strictEq_true _ _) H). simpl.
  destruct (streak w) as [n d r]. simpl in *. now subst d.
Qed.

End StreakFacts.



Lemma recordCompletions_same_day (d : string) (cs : list Clock) (w : World) :
  Forall (fun c => todayString c = d) cs ->
  lastCompletionDate (streak w) = Some d ->
  streak (recordCompletions cs w) = streak w.
Proof.
  intros Hcs. revert w.
  induction Hcs as [|c cs Hc _ IH]; intros w Hw; [reflexivity|].
  unfold recordCompletions in *. simpl.
  assert (Hs : streak (recordCompletion c w) = streak w)
    by (apply recordCompletion_same_day; congruence).
  rewrite IH; [exact Hs | now rewrite Hs].
Qed.

(** C2: recording a completion when the last completion date is already
    today leaves the count (and the rest of the streak) as it is; after a
    first call on some day, any further calls on that day leave the count
    where the first call put it. *)
Theorem recordCompletion_idempotent (c : Clock) (w : World) :
  (lastCompletionDate (streak w) = Some (todayString c) ->
     count (streak (recordCompletion c w)) = count (streak w) /\
     streak (recordCompletion c w) = streak w) /\
  (forall cs : list Clock,
     Forall (fun c' => todayString c' = todayString c) cs ->
     count (streak (recordCompletions cs (recordCompletion c w))) =
     count (streak (recordCompletion c w))).
Proof.
  split.
  - intros H. now rewrite recordCompletion_same_day.
  - intros cs Hcs. f_equal.
    apply (recordCompletions_same_day (todayString c)); [exact Hcs|].
    apply lastCompletionDate_recordCompletion.
Qed.

Lemma recordCompletion_idempotent_witness :
  count (streak (recordCompletion march10 afterFirstCompletion)) = 1 /\
  count (streak (recordCompletions [march10; march10] (recordCompletion march10 freshWorld))) =
  count (streak (recordCompletion march10 freshWorld)).
Proof.
  split.
  - apply (proj1 (proj1 (recordCompletion_idempotent march10 afterFirstCompletion) eq_refl)).
  - apply (proj2 (recordCompletion_idempotent march10 freshWorld)).
    repeat constructor.
Defined.



(** ** Milestones *)

Lemma find_milestone_member (n : Z) :
  In n STREAK_MILESTONES -> List.find (fun m => Z.eqb m n) STREAK_MILESTONES = Some n.
Proof.
  unfold STREAK_MILESTONES. simpl.
  intros [<-|[<-|[<-|[<-|[<-|[]]]]]]; reflexivity.
Qed.

Lemma find_milestone_other (n : Z) :
  ~ In n STREAK_MILESTONES -> List.find (fun m => Z.eqb m n) STREAK_MILESTONES = None.
Proof.
  intros Hn. destruct (List.find _ _) as [m|] eqn:Hf; [|reflexivity].
  apply List.find_some in Hf as [Hin Heq].
  apply Z.eqb_eq in Heq. now subst m.
Qed.

Lemma milestones_recordCompletion_le (c : Clock) (w : World) :
  (countEffects isMilestoneModal (recordCompletion c w) <=
   countEffects isMilestoneModal w + 1)%nat.
Proof.
  unfold recordCompletion, updateStreak, countEffects.
  assert (Hcheck : forall n d w',
    (length (List.filter isMilestoneModal (effects (checkStreakMilestones n d w'))) <=
     length (List.filter isMilestoneModal (effects w')) + 1)%nat).
  { intros n d w'. unfold checkStreakMilestones.
    destruct (negb _); [|lia].
    destruct (List.find _ _) as [m|]; [|lia].
    destruct (negb _); simpl; lia. }
  destruct (strictEq _ (todayString c)); [simpl; lia|].
  destruct (truthy _); [destruct (strictEq _ _)|]; simpl;
    (eapply Nat.le_trans; [apply Hcheck | simpl; lia]).
Qed.

Lemma milestones_recordCompletion_same_day (c : Clock) (w : World) :
  lastCompletionDate (streak w) = Some (todayString c) ->
  countEffects isMilestoneModal (recordCompletion c w) = countEffects isMilestoneModal w.
Proof.
  intros H%strictEq_true. unfold recordCompletion, updateStreak, countEffects.
  now rewrite H.
Qed.

Lemma milestones_recordCompletions_same_day (d : string) (cs : list Clock) (w : World) :
  Forall (fun c => todayString c = d) cs ->
  lastCompletionDate (streak w) = Some d ->
  countEffects isMilestoneModal (recordCompletions cs w) = countEffects isMilestoneModal w.
Proof.
  intros Hcs. revert w.
  induction Hcs as [|c cs Hc _ IH]; intros w Hw; [reflexivity|].
  unfold recordCompletions in *. simpl.
  rewrite IH.
  - apply milestones_recordCompletion_same_day. congruence.
  - rewrite lastCompletionDate_recordCompletion. congruence.
Qed.

(** C4: the milestone check shows the milestone and marks today as rewarded
    exactly when today is not the last rewarded day and the count is one of
    5, 10, 20, 50, 100, and does nothing otherwise; completions recorded on
    one calendar day show at most one milestone between them. *)
Theorem checkStreakMilestones_once_a_day :
  STREAK_MILESTONES = [5; 10; 20; 50; 100] /\
  (forall (n : Z) (today : string) (w : World),
     lastRewardedDay (streak w) <> Some today /\ In n STREAK_MILESTONES ->
     checkStreakMilestones n today w =
     set_lastRewardedDay (Some today) (showModal (ModalMilestone n) w)) /\
  (forall (n : Z) (today : string) (w : World),
     ~ (lastRewardedDay (streak w) <> Some today /\ In n STREAK_MILESTONES) ->
     checkStreakMilestones n today w = w) /\
  (forall (d : string) (cs : list Clock) (w : World),
     Forall (fun c => todayString c = d) cs ->
     (countEffects isMilestoneModal (recordCompletions cs w) <=
      countEffects isMilestoneModal w + 1)%nat).
Proof.
  split; [reflexivity|]. split; [|split].
  - intros n today w [Hday%strictEq_false Hin].
    unfold checkStreakMilestones.
    rewrite Hday, (find_milestone_member n Hin). simpl.
    destruct (Z.eqb_spec n 0) as [->|_]; [|reflexivity].
    exfalso. revert Hin. unfold STREAK_MILESTONES. simpl. intuition discriminate.
  - intros n today w Hnot. unfold checkStreakMilestones.
    destruct (strictEq _ today) eqn:Hday; [reflexivity|].
    rewrite find_milestone_other; [reflexivity|].
    intros Hin. apply Hnot. split; [now apply strictEq_false | exact Hin].
  - intros d cs w Hcs. destruct Hcs as [|c cs Hc Hcs]; [unfold recordCompletions; simpl; lia|].
    change (recordCompletions (c :: cs) w) with (recordCompletions cs (recordCompletion c w)).
    rewrite (milestones_recordCompletions_same_day d); [apply milestones_recordCompletion_le | exact Hcs |].
    rewrite lastCompletionDate_recordCompletion. congruence.
Qed.

Lemma checkStreakMilestones_once_a_day_witness :
  checkStreakMilestones 5 "2024-03-10" freshWorld =
    set_lastRewardedDay (Some "2024-03-10") (showModal (ModalMilestone 5) freshWorld) /\
  checkStreakMilestones 6 "2024-03-10" freshWorld = freshWorld /\
  (countEffects isMilestoneModal
     (recordCompletions [march11; march11; march11] (set_count 4 afterFirstCompletion)) <=
   countEffects isMilestoneModal (set_count 4 afterFirstCompletion) + 1)%nat.
Proof.
  destruct checkStreakMilestones_once_a_day as (_ & Hshow & Hskip & Hday).
  split; [|split].
  - apply Hshow. split; [discriminate | simpl; tauto].
  - apply Hskip. intros [_ Hin]. simpl in Hin. intuition discriminate.
  - apply (Hday "2024-03-11"). repeat constructor.
Defined.

(** ** What the handlers leave alone *)

Lemma run_preserves (P : World -> Prop) :
  (forall e w, P w -> P (step e w)) ->
  forall evs w, P w -> P (run evs w).
Proof.
  intros Hstep evs. unfold run.
  induction evs as [|e evs IH]; intros w Hw; simpl; [exact Hw|].
  apply IH, Hstep, Hw.
Qed.

(** The timer's handlers leave the document that is saved as it is. *)
Lemma snapshot_clearInterval (h : option nat) (w : World) :
  snapshot (clearInterval h w) = snapshot w.
Proof. destruct h; reflexivity. Qed.

Lemma snapshot_pauseTimer (w : World) : snapshot (pauseTimer w) = snapshot w.
Proof. unfold pauseTimer. apply (snapshot_clearInterval _ w). Qed.

Lemma snapshot_setPomodoroMode (m : string) (w : World) :
  snapshot (setPomodoroMode m w) = snapshot w.
Proof. unfold setPomodoroMode. apply (snapshot_clearInterval _ w). Qed.

Lemma snapshot_handleTimerEnd (b : bool) (w : World) :
  snapshot (handleTimerEnd b w) = snapshot w.
Proof.
  unfold handleTimerEnd. destruct (endTransition _) as [nextMode message].
  rewrite snapshot_setPomodoroMode. now destruct b.
Qed.

Lemma snapshot_intervalCallback (w : World) :
  snapshot (intervalCallback w) = snapshot w.
Proof.
  unfold intervalCallback. destruct (Z.leb _ _); [|reflexivity].
  rewrite snapshot_handleTimerEnd.
  apply (snapshot_clearInterval _ (set_time (time (pomodoro w) - 1) w)).
Qed.

Lemma snapshot_tick (w : World) : snapshot (tick w) = snapshot w.
Proof.
  unfold tick. generalize (liveIntervals w) as hs. intros hs. revert w.
  induction hs as [|h hs IH]; intros w; simpl; [reflexivity|].
  rewrite IH. destruct (existsb _ _); [apply snapshot_intervalCallback | reflexivity].
Qed.

Lemma snapshot_startTimer (w : World) : snapshot (startTimer w) = snapshot w.
Proof. unfold startTimer. now destruct (running _). Qed.

Lemma snapshot_resetTimer (w : World) : snapshot (resetTimer w) = snapshot w.
Proof.
  unfold resetTimer. destruct (String.eqb _ _).
  - rewrite snapshot_handleTimerEnd. apply snapshot_pauseTimer.
  - change (snapshot (setPomodoroMode (mode (pomodoro (pauseTimer w))) (pauseTimer w))
            = snapshot w).
    rewrite snapshot_setPomodoroMode. apply snapshot_pauseTimer.
Qed.

Lemma same_snapshot_streak (w1 w2 : World) :
  snapshot w1 = snapshot w2 -> streak w1 = streak w2.
Proof. intros H. exact (f_equal snap_streak H). Qed.

Lemma same_snapshot_tasks (w1 w2 : World) :
  snapshot w1 = snapshot w2 -> tasks w1 = tasks w2.
Proof. intros H. exact (f_equal snap_tasks H). Qed.

Lemma streak_toggleTheme (w : World) : streak (toggleTheme w) = streak w.
Proof.
  unfold toggleTheme, saveState. cbv zeta.
  change (streak (emit ?e ?x)) with (streak x).
  now rewrite (same_snapshot_streak _ _ (snapshot_setPomodoroMode _ _)).
Qed.

Lemma tasks_toggleTheme (w : World) : tasks (toggleTheme w) = tasks w.
Proof.
  unfold toggleTheme, saveState. cbv zeta.
  change (tasks (emit ?e ?x)) with (tasks x).
  now rewrite (same_snapshot_tasks _ _ (snapshot_setPomodoroMode _ _)).
Qed.

Lemma streak_taskFormSubmit f t s c d p (w : World) :
  streak (taskFormSubmit f t s c d p w) = streak w.
Proof.
  unfold taskFormSubmit. destruct f; try reflexivity.
  now destruct (list_find _ _) as [[k x]|].
Qed.

Lemma streak_saveSettings t n m l (w : World) :
  streak (saveSettings t n m l w) = streak w.
Proof.
  unfold saveSettings.
  destruct (String.eqb t "name"); [now destruct (negb _)|].
  now destruct (String.eqb t "profile").
Qed.

Lemma streak_goalFormSubmit s h (w : World) :
  streak (goalFormSubmit s h w) = streak w.
Proof.
  unfold goalFormSubmit. destruct h as [h|]; [|reflexivity].
  now destruct (negb _ && _).
Qed.

Lemma streak_emit (e : Effect) (w : World) : streak (emit e w) = streak w.
Proof. reflexivity. Qed.

(** The three ways [toggleTaskStatus] can go. *)
Lemma toggleTaskStatus_missing (c : Clock) (i : Z) (w : World) :
  list_find (fun t => id t = i) (tasks w) = None -> toggleTaskStatus c i w = w.
Proof. intros H. unfold toggleTaskStatus. now rewrite H. Qed.

Lemma toggleTaskStatus_pending (c : Clock) (i : Z) (w : World) (k : nat) (x : Task) :
  list_find (fun t => id t = i) (tasks w) = Some (k, x) ->
  status x = "pending" ->
  toggleTaskStatus c i w =
  showModal (ModalStatusUpdate (title x) "completed")
    (saveState (updateStreak true c
       (set_tasks (alter (setStatus "completed") k (tasks w)) w))).
Proof. intros H Hs. unfold toggleTaskStatus. now rewrite H, Hs. Qed.

Lemma toggleTaskStatus_not_pending (c : Clock) (i : Z) (w : World) (k : nat) (x : Task) :
  list_find (fun t => id t = i) (tasks w) = Some (k, x) ->
  status x <> "pending" ->
  toggleTaskStatus c i w =
  showModal (ModalStatusUpdate (title x) "pending")
    (saveState (set_tasks (alter (setStatus "pending") k (tasks w)) w)).
Proof.
  intros H Hs%String.eqb_neq. unfold toggleTaskStatus. now rewrite H, Hs.
Qed.


(** ** The streak invariant *)

Lemma streakWellFormed_updateStreak (b : bool) (c : Clock) (w : World) :
  streakWellFormed (streak w) -> streakWellFormed (streak (updateStreak b c w)).
Proof.
  unfold streakWellFormed, streakInvariant. intros [Hpos Hiff]. destruct b.
  - fold (recordCompletion c w).
    rewrite count_recordCompletion, lastCompletionDate_recordCompletion.
    destruct (strictEq _ (todayString c)) eqn:Ht.
    + apply strictEq_true in Ht. split; [exact Hpos|].
      split; [|discriminate]. intros H0. apply Hiff in H0. congruence.
    + destruct (strictEq _ (yesterdayString c)); (split; [lia|]);
        (split; [lia | discriminate]).
  - unfold updateStreak.
    destruct (truthy _); [destruct (strLt _ _)|]; simpl;
      first [tauto | split; [lia | split; reflexivity]].
Qed.

Lemma streakWellFormed_step (e : Event) (w : World) :
  streakWellFormed (streak w) -> streakWellFormed (streak (step e w)).
Proof.
  intros H. destruct e; cbn [step].
  - now rewrite streak_taskFormSubmit.
  - exact H.
  - destruct (list_find (fun t => id t = i) (tasks w)) as [[k x]|] eqn:Hf;
      [|now rewrite toggleTaskStatus_missing].
    destruct (string_dec (status x) "pending") as [Hs|Hs].
    + rewrite (toggleTaskStatus_pending c i w k x Hf Hs).
      unfold showModal, saveState. rewrite !streak_emit.
      now apply streakWellFormed_updateStreak.
    + now rewrite (toggleTaskStatus_not_pending c i w k x Hf Hs).
  - now rewrite streak_saveSettings.
  - now rewrite streak_goalFormSubmit.
  - now rewrite streak_toggleTheme.
  - now rewrite (same_snapshot_streak _ _ (snapshot_startTimer w)).
  - now rewrite (same_snapshot_streak _ _ (snapshot_pauseTimer w)).
  - now rewrite (same_snapshot_streak _ _ (snapshot_resetTimer w)).
  - now rewrite (same_snapshot_streak _ _ (snapshot_setPomodoroMode m w)).
  - now rewrite (same_snapshot_streak _ _ (snapshot_tick w)).
  - now apply streakWellFormed_updateStreak.
Qed.

Lemma streakWellFormed_reachable (w : World) :
  Reachable w -> streakWellFormed (streak w).
Proof.
  intros (label & evs & _ & ->).
  apply (run_preserves (fun w => streakWellFormed (streak w))).
  - apply streakWellFormed_step.
  - unfold streakWellFormed, streakInvariant. simpl. split; [lia | tauto].
Qed.

(** C5: [count == 0] iff [lastCompletionDate] is null holds when the script
    is loaded, holds in every reachable world, and still holds there after
    a completion is recorded or the check at load is run. *)
Theorem streakInvariant_reachable :
  (forall resetLabel, streakInvariant (streak (initialWorld resetLabel))) /\
  (forall w : World, Reachable w ->
     streakInvariant (streak w) /\
     (forall c, streakInvariant (streak (recordCompletion c w))) /\
     (forall c, streakInvariant (streak (reconcileOnLoad c w)))).
Proof.
  split.
  - intros label. unfold streakInvariant. simpl. tauto.
  - intros w Hw. pose proof (streakWellFormed_reachable w Hw) as Hwf.
    split; [apply Hwf|].
    split; intros c; apply (streakWellFormed_updateStreak _ c w Hwf).
Qed.

Lemma afterFirstCompletion_reachable : Reachable afterFirstCompletion.
Proof.
  exists "Reset". eexists. split; [discriminate | reflexivity].
Qed.

Lemma streakInvariant_reachable_witness :
  streakInvariant (streak afterFirstCompletion) /\
  streakInvariant (streak (recordCompletion march11 afterFirstCompletion)) /\
  streakInvariant (streak (reconcileOnLoad march14 afterFirstCompletion)).
Proof.
  destruct (proj2 streakInvariant_reachable afterFirstCompletion
              afterFirstCompletion_reachable) as (H & Hrec & Hload).
  split; [exact H|]. split; [apply Hrec | apply Hload].
Defined.

(** ** Pomodoro timer *)

(** Repeated case analysis on the tests a handler makes. *)
Ltac split_tests :=
  repeat match goal with
    | |- context [match ?x with Some _ => _ | None => _ end] => destruct x
    | |- context [if ?x then _ else _] => destruct x
    end.

Lemma pomodoro_clearInterval (w : World) (h : option nat) :
  pomodoro (clearInterval h w) = pomodoro w.
Proof. destruct h; reflexivity. Qed.

Lemma resetBtnText_clearInterval (w : World) (h : option nat) :
  resetBtnText (clearInterval h w) = resetBtnText w.
Proof. destruct h; reflexivity. Qed.

Lemma effects_clearInterval (w : World) (h : option nat) :
  effects (clearInterval h w) = effects w.
Proof. destruct h; reflexivity. Qed.

Lemma liveIntervals_clearInterval (w : World) :
  timerInvariant w -> liveIntervals (clearInterval (intervalId (pomodoro w)) w) = [].
Proof.
  unfold timerInvariant. destruct (running (pomodoro w)).
  - intros (h & Hlive & ->). simpl. rewrite Hlive. simpl.
    now rewrite Nat.eqb_refl.
  - intros Hlive. destruct (intervalId (pomodoro w)); simpl; now rewrite Hlive.
Qed.

Lemma pomodoro_pauseTimer (w : World) :
  pomodoro (pauseTimer w) =
  mkPomodoro (time (pomodoro w)) (mode (pomodoro w)) false (intervalId (pomodoro w)).
Proof. unfold pauseTimer. simpl. now rewrite pomodoro_clearInterval. Qed.

Lemma resetBtnText_pauseTimer (w : World) : resetBtnText (pauseTimer w) = resetBtnText w.
Proof. unfold pauseTimer. simpl. apply resetBtnText_clearInterval. Qed.

Lemma effects_pauseTimer (w : World) : effects (pauseTimer w) = effects w.
Proof. unfold pauseTimer. simpl. apply effects_clearInterval. Qed.

Lemma liveIntervals_pauseTimer (w : World) :
  timerInvariant w -> liveIntervals (pauseTimer w) = [].
Proof. unfold pauseTimer. simpl. apply liveIntervals_clearInterval. Qed.

Lemma pomodoro_setPomodoroMode (w : World) (m : string) :
  pomodoro (setPomodoroMode m w) =
  mkPomodoro (modeDuration m) m false (intervalId (pomodoro w)).
Proof. unfold setPomodoroMode. simpl. now rewrite pomodoro_clearInterval. Qed.

Lemma resetBtnText_setPomodoroMode (w : World) (m : string) :
  resetBtnText (setPomodoroMode m w) = resetBtnText w.
Proof. unfold setPomodoroMode. simpl. apply resetBtnText_clearInterval. Qed.

Lemma effects_setPomodoroMode (w : World) (m : string) :
  effects (setPomodoroMode m w) = effects w.
Proof. unfold setPomodoroMode. simpl. apply effects_clearInterval. Qed.

Lemma liveIntervals_setPomodoroMode (w : World) (m : string) :
  timerInvariant w -> liveIntervals (setPomodoroMode m w) = [].
Proof. unfold setPomodoroMode. simpl. apply liveIntervals_clearInterval. Qed.

Lemma pomodoro_handleTimerEnd (w : World) (manual : bool) :
  pomodoro (handleTimerEnd manual w) =
  mkPomodoro (modeDuration (fst (endTransition (mode (pomodoro w)))))
    (fst (endTransition (mode (pomodoro w)))) false (intervalId (pomodoro w)).
Proof.
  unfold handleTimerEnd. destruct (endTransition _) as [nextMode message].
  rewrite pomodoro_setPomodoroMode. now destruct manual.
Qed.

Lemma resetBtnText_handleTimerEnd (w : World) (manual : bool) :
  resetBtnText (handleTimerEnd manual w) = resetBtnText w.
Proof.
  unfold handleTimerEnd. destruct (endTransition _) as [nextMode message].
  rewrite resetBtnText_setPomodoroMode. now destruct manual.
Qed.

Lemma effects_handleTimerEnd (w : World) (manual : bool) :
  effects (handleTimerEnd manual w) =
  if manual then effects w
  else ShowModal (ModalTimerDone (snd (endTransition (mode (pomodoro w))))) :: effects w.
Proof.
  unfold handleTimerEnd. destruct (endTransition _) as [nextMode message].
  rewrite effects_setPomodoroMode. now destruct manual.
Qed.

Lemma liveIntervals_handleTimerEnd (w : World) (manual : bool) :
  timerInvariant w -> liveIntervals (handleTimerEnd manual w) = [].
Proof.
  intros H. unfold handleTimerEnd. destruct (endTransition _) as [nextMode message].
  apply liveIntervals_setPomodoroMode. now destruct manual.
Qed.

(** Handlers outside the timer leave what the timer reads alone. *)
Lemma timerView_emit (e : Effect) (w : World) : timerView (emit e w) = timerView w.
Proof. reflexivity. Qed.

Lemma timerView_checkStreakMilestones (n : Z) (d : string) (w : World) :
  timerView (checkStreakMilestones n d w) = timerView w.
Proof.
  unfold checkStreakMilestones.
  destruct (negb _); [|reflexivity].
  destruct (List.find _ _) as [m|]; [|reflexivity].
  destruct (negb _); reflexivity.
Qed.

Lemma timerView_updateStreak (b : bool) (c : Clock) (w : World) :
  timerView (updateStreak b c w) = timerView w.
Proof.
  unfold updateStreak, saveState. rewrite !timerView_emit. destruct b.
  - destruct (strictEq _ (todayString c)); [reflexivity|].
    destruct (truthy _); [destruct (strictEq _ _)|]; cbv beta iota zeta;
      now rewrite timerView_checkStreakMilestones.
  - destruct (truthy _); [destruct (strLt _ _)|]; reflexivity.
Qed.

Lemma timerView_toggleTaskStatus (c : Clock) (i : Z) (w : World) :
  timerView (toggleTaskStatus c i w) = timerView w.
Proof.
  destruct (list_find (fun t => id t = i) (tasks w)) as [[k x]|] eqn:Hf;
    [|now rewrite toggleTaskStatus_missing].
  destruct (string_dec (status x) "pending") as [Hs|Hs].
  - rewrite (toggleTaskStatus_pending c i w k x Hf Hs).
    unfold showModal, saveState. rewrite !timerView_emit.
    now rewrite timerView_updateStreak.
  - now rewrite (toggleTaskStatus_not_pending c i w k x Hf Hs).
Qed.

Lemma timerView_step (e : Event) (w : World) :
  match e with
  | EvToggleTheme | EvStart | EvPause | EvReset | EvSetMode _ | EvTick => True
  | _ => timerView (step e w) = timerView w
  end.
Proof.
  destruct e; cbn [step]; try exact I.
  - unfold taskFormSubmit. destruct field; try reflexivity.
    now destruct (list_find _ _) as [[k x]|].
  - reflexivity.
  - apply timerView_toggleTaskStatus.
  - unfold saveSettings. split_tests; reflexivity.
  - unfold goalFormSubmit. split_tests; reflexivity.
  - apply timerView_updateStreak.
Qed.

Lemma timerInvariant_view (w1 w2 : World) :
  timerView w1 = timerView w2 -> timerInvariant w1 -> timerInvariant w2.
Proof.
  unfold timerView, timerInvariant. intros [= Hp _ Hl]. now rewrite Hp, Hl.
Qed.

Lemma timerInvariant_idle (w : World) :
  running (pomodoro w) = false -> liveIntervals w = [] -> timerInvariant w.
Proof. unfold timerInvariant. now intros ->. Qed.

Lemma tick_idle (w : World) :
  timerInvariant w -> running (pomodoro w) = false -> tick w = w.
Proof.
  unfold timerInvariant, tick. intros H Hr. rewrite Hr in H. now rewrite H.
Qed.

Lemma tick_running (w : World) :
  timerInvariant w -> running (pomodoro w) = true -> tick w = intervalCallback w.
Proof.
  unfold timerInvariant, tick. intros H Hr. rewrite Hr in H.
  destruct H as (h & Hlive & _). rewrite Hlive. simpl.
  now rewrite Hlive; simpl; rewrite Nat.eqb_refl.
Qed.

Lemma intervalCallback_counting (w : World) :
  1 < time (pomodoro w) ->
  intervalCallback w = set_time (time (pomodoro w) - 1) w.
Proof.
  intros H. unfold intervalCallback. simpl.
  destruct (Z.leb_spec (time (pomodoro w) - 1) 0); [lia | reflexivity].
Qed.

(** What the last tick of a session does. *)
Lemma intervalCallback_completes (w : World) :
  timerInvariant w -> running (pomodoro w) = true -> time (pomodoro w) <= 1 ->
  let w' := intervalCallback w in
  pomodoro w' =
    mkPomodoro (modeDuration (fst (endTransition (mode (pomodoro w)))))
      (fst (endTransition (mode (pomodoro w)))) false (intervalId (pomodoro w)) /\
  liveIntervals w' = [] /\
  resetBtnText w' = "Next Mode" /\
  effects w' =
    ShowModal (ModalTimerDone (snd (endTransition (mode (pomodoro w))))) :: effects w.
Proof.
  intros Hinv Hr Ht. unfold intervalCallback. simpl.
  destruct (Z.leb_spec (time (pomodoro w) - 1) 0); [|lia].
  rewrite pomodoro_handleTimerEnd, resetBtnText_handleTimerEnd, effects_handleTimerEnd.
  simpl. rewrite pomodoro_clearInterval, effects_clearInterval. simpl.
  repeat split.
  apply liveIntervals_handleTimerEnd, timerInvariant_idle; [reflexivity|].
  simpl. unfold timerInvariant in Hinv. rewrite Hr in Hinv.
  destruct Hinv as (h & Hlive & ->). simpl. rewrite Hlive. simpl.
  now rewrite Nat.eqb_refl.
Qed.

Lemma timerInvariant_step (e : Event) (w : World) :
  timerInvariant w -> timerInvariant (step e w).
Proof.
  intros H. pose proof (timerView_step e w) as Hview.
  destruct e; cbn [step] in *;
    try (apply (timerInvariant_view w); [now symmetry | exact H]).
  - unfold toggleTheme, saveState. cbv zeta.
    apply (timerInvariant_view _ _ (eq_sym (timerView_emit _ _))).
    apply timerInvariant_idle;
      [now rewrite pomodoro_setPomodoroMode | now apply liveIntervals_setPomodoroMode].
  - unfold startTimer. destruct (running (pomodoro w)) eqn:Hr; [exact H|].
    unfold timerInvariant in *. rewrite Hr in H. simpl. rewrite H. eauto.
  - apply timerInvariant_idle;
      [now rewrite pomodoro_pauseTimer | now apply liveIntervals_pauseTimer].
  - assert (Hp : timerInvariant (pauseTimer w)).
    { apply timerInvariant_idle;
        [now rewrite pomodoro_pauseTimer | now apply liveIntervals_pauseTimer]. }
    unfold resetTimer. destruct (String.eqb _ _).
    + apply timerInvariant_idle;
        [now rewrite pomodoro_handleTimerEnd | now apply liveIntervals_handleTimerEnd].
    + change (timerInvariant
                (setPomodoroMode (mode (pomodoro (pauseTimer w))) (pauseTimer w))).
      apply timerInvariant_idle;
        [now rewrite pomodoro_setPomodoroMode | now apply liveIntervals_setPomodoroMode].
  - apply timerInvariant_idle;
      [now rewrite pomodoro_setPomodoroMode | now apply liveIntervals_setPomodoroMode].
  - destruct (running (pomodoro w)) eqn:Hr.
    + rewrite tick_running by assumption.
      destruct (Z.lt_ge_cases 1 (time (pomodoro w))) as [Hgt|Hle].
      * rewrite intervalCallback_counting by assumption.
        unfold timerInvariant in *. simpl. now rewrite Hr in *.
      * destruct (intervalCallback_completes w H Hr Hle) as (Hp & Hl & _).
        apply timerInvariant_idle; [now rewrite Hp | exact Hl].
    + now rewrite tick_idle.
Qed.

Lemma timerInvariant_reachable (w : World) : Reachable w -> timerInvariant w.
Proof.
  intros (label & evs & _ & ->).
  apply (run_preserves timerInvariant); [apply timerInvariant_step | reflexivity].
Qed.

Lemma set_time_same (w : World) : set_time (time (pomodoro w)) w = w.
Proof. destruct w as [? ? ? ? ? [? ? ? ?] ? ? ? ? ? ?]. reflexivity. Qed.

Lemma set_time_twice (a b : Z) (w : World) : set_time a (set_time b w) = set_time a w.
Proof. reflexivity. Qed.

Lemma ticks_succ (n : N) (w : World) : ticks (N.succ n) w = tick (ticks n w).
Proof. unfold ticks. apply N.iter_succ. Qed.

(** While more than [n] seconds remain, [n] ticks only count down. *)
Lemma ticks_counting (n : N) (w : World) :
  timerInvariant w -> running (pomodoro w) = true ->
  Z.of_N n < time (pomodoro w) ->
  ticks n w = set_time (time (pomodoro w) - Z.of_N n) w.
Proof.
  intros Hinv Hr. induction n as [|n IH] using N.peano_ind; intros Hn.
  - simpl. rewrite Z.sub_0_r. symmetry. apply set_time_same.
  - rewrite ticks_succ, IH by lia.
    rewrite tick_running; [|exact Hinv|exact Hr].
    rewrite intervalCallback_counting by (simpl; lia).
    simpl time. rewrite set_time_twice. f_equal. lia.
Qed.

(** C6: a running study session of 1500 seconds only counts down for 1499
    ticks; the 1500th tick stops it, shows the one completion modal and
    enters the short break of 300 seconds.  The end-of-session transition
    sends study to the short break and both breaks to study, and never
    chooses the long break. *)
Theorem study_session_completes (w : World) :
  Reachable w ->
  mode (pomodoro w) = "study" ->
  time (pomodoro w) = 1500 ->
  running (pomodoro w) = true ->
  (forall n : N, (n < 1500)%N ->
     running (pomodoro (ticks n w)) = true /\
     mode (pomodoro (ticks n w)) = "study" /\
     time (pomodoro (ticks n w)) = 1500 - Z.of_N n /\
     effects (ticks n w) = effects w) /\
  running (pomodoro (ticks 1500 w)) = false /\
  mode (pomodoro (ticks 1500 w)) = "short" /\
  time (pomodoro (ticks 1500 w)) = 300 /\
  effects (ticks 1500 w) =
    ShowModal (ModalTimerDone
      "Study session complete! Time for a short break. You earned it!") :: effects w /\
  countEffects isTimerDone (ticks 1500 w) = S (countEffects isTimerDone w) /\
  fst (endTransition "study") = "short" /\
  fst (endTransition "short") = "study" /\
  fst (endTransition "long") = "study" /\
  (forall (manual : bool) (w' : World),
     mode (pomodoro (handleTimerEnd manual w')) <> "long").
Proof.
  intros Hreach Hmode Htime Hrun.
  pose proof (timerInvariant_reachable w Hreach) as Hinv.
  assert (Hcount : forall n : N, (n < 1500)%N ->
            ticks n w = set_time (1500 - Z.of_N n) w).
  { intros n Hn. rewrite ticks_counting by (try assumption; lia). now rewrite Htime. }
  split.
  { intros n Hn. rewrite (Hcount n Hn). simpl. auto. }
  assert (Hlast : ticks 1500 w = intervalCallback (set_time 1 w)).
  { replace 1500%N with (N.succ 1499) by reflexivity.
    rewrite ticks_succ, (Hcount 1499%N) by lia.
    apply tick_running; [exact Hinv | exact Hrun]. }
  destruct (intervalCallback_completes (set_time 1 w)) as (Hp & _ & _ & He);
    [exact Hinv | exact Hrun | simpl; lia |].
  rewrite Hlast. unfold countEffects. rewrite Hp, He. simpl. rewrite Hmode. simpl.
  split; [reflexivity|]. split; [reflexivity|]. split; [reflexivity|].
  split; [reflexivity|]. split; [reflexivity|]. split; [reflexivity|].
  split; [reflexivity|]. split; [reflexivity|].
  intros manual w'. rewrite pomodoro_handleTimerEnd. simpl.
  unfold endTransition. split_tests; discriminate.
Qed.

Lemma study_session_completes_witness :
  running (pomodoro (ticks 1500 studySessionStarted)) = false /\
  mode (pomodoro (ticks 1500 studySessionStarted)) = "short" /\
  time (pomodoro (ticks 1500 studySessionStarted)) = 300 /\
  countEffects isTimerDone (ticks 1500 studySessionStarted) = 1%nat.
Proof.
  assert (Hreach : Reachable studySessionStarted).
  { exists "Reset", [EvStart]. split; [discriminate | reflexivity]. }
  destruct (study_session_completes studySessionStarted Hreach eq_refl eq_refl eq_refl)
    as (_ & Hr & Hm & Ht & _ & Hc & _).
  exact (conj Hr (conj Hm (conj Ht Hc))).
Defined.

(** ** The reset button *)

Lemma resetButtonInvariant_view (w1 w2 : World) (flag : bool) :
  timerView w1 = timerView w2 ->
  resetButtonInvariant w1 flag -> resetButtonInvariant w2 flag.
Proof.
  unfold timerView, resetButtonInvariant, timerInvariant.
  intros [= Hp Hb Hl]. now rewrite Hp, Hb, Hl.
Qed.

Lemma resetButtonInvariant_step (e : Event) (w : World) (flag : bool) :
  resetButtonInvariant w flag ->
  resetButtonInvariant (step e w)
    (if naturalCompletion e w then true else if clearsStart e then false else flag).
Proof.
  intros Hall. pose proof Hall as (Hinv & Hrun & Hflag).
  pose proof (timerInvariant_step e w Hinv) as Hinv'.
  pose proof (timerView_step e w) as Hview.
  destruct e; cbn [step naturalCompletion clearsStart] in *;
    try (apply (resetButtonInvariant_view w); [now symmetry | exact Hall]);
    (split; [exact Hinv'|]).
  - unfold toggleTheme, saveState. cbv zeta.
    change (pomodoro (emit ?e ?x)) with (pomodoro x).
    change (resetBtnText (emit ?e ?x)) with (resetBtnText x).
    rewrite pomodoro_setPomodoroMode, resetBtnText_setPomodoroMode.
    split; [discriminate | exact Hflag].
  - unfold startTimer.
    destruct (running (pomodoro w)) eqn:Hr.
    + split; [reflexivity|]. split; [discriminate|].
      intros Hb. apply Hflag in Hb. now rewrite Hrun in Hb.
    + split; [reflexivity|]. split; discriminate.
  - rewrite pomodoro_pauseTimer, resetBtnText_pauseTimer.
    split; [discriminate | exact Hflag].
  - unfold resetTimer. rewrite resetBtnText_pauseTimer.
    destruct (String.eqb_spec (resetBtnText w) "Next Mode") as [Hb|Hb].
    + rewrite pomodoro_handleTimerEnd, resetBtnText_handleTimerEnd,
        resetBtnText_pauseTimer.
      split; [discriminate | exact Hflag].
    + change (pomodoro (set_resetBtnText ?t ?x)) with (pomodoro x).
      rewrite pomodoro_setPomodoroMode.
      split; [discriminate|]. split; [|discriminate].
      intros Hf. now apply Hflag in Hf.
  - rewrite pomodoro_setPomodoroMode, resetBtnText_setPomodoroMode.
    split; [discriminate | exact Hflag].
  - destruct (running (pomodoro w)) eqn:Hr.
    + rewrite tick_running by assumption.
      unfold timerInvariant in Hinv. rewrite Hr in Hinv.
      destruct Hinv as (h & Hlive & Hid). rewrite Hlive.
      destruct (Z.leb_spec (time (pomodoro w) - 1) 0) as [Hle|Hgt].
      * destruct (intervalCallback_completes w) as (Hp & _ & Hb & _);
          [unfold timerInvariant; rewrite Hr; eauto | exact Hr | lia |].
        rewrite Hp, Hb. split; [discriminate|]. split; reflexivity.
      * rewrite intervalCallback_counting by lia.
        split; [intros _; now apply Hrun | exact Hflag].
    + rewrite tick_idle by assumption.
      unfold timerInvariant in Hinv. rewrite Hr in Hinv. rewrite Hinv.
      split; [now rewrite Hr | exact Hflag].
Qed.

Lemma pomodoro_set_resetBtnText (t : string) (w : World) :
  pomodoro (set_resetBtnText t w) = pomodoro w.
Proof. reflexivity. Qed.

Lemma effects_set_resetBtnText (t : string) (w : World) :
  effects (set_resetBtnText t w) = effects w.
Proof. reflexivity. Qed.

Lemma resetButtonInvariant_run (evs : list Event) :
  forall (w : World) (flag : bool),
    resetButtonInvariant w flag ->
    resetButtonInvariant (run evs w) (completedSince clearsStart evs w flag).
Proof.
  induction evs as [|e evs IH]; intros w flag H; [exact H|].
  simpl. apply IH, resetButtonInvariant_step, H.
Qed.

Lemma resetButtonInvariant_initial (resetLabel : string) :
  resetLabel <> "Next Mode" -> resetButtonInvariant (initialWorld resetLabel) false.
Proof.
  intros H. split; [reflexivity|]. split; [reflexivity|].
  simpl. split; [discriminate | intros E; now apply H in E].
Qed.

(** A completion since the last start or reset is one since the last start. *)
Lemma completedSince_start_or_reset (evs : list Event) :
  forall (w : World) (f1 f2 : bool),
    (f1 = true -> f2 = true) ->
    completedSince clearsStartOrReset evs w f1 = true ->
    completedSince clearsStart evs w f2 = true.
Proof.
  induction evs as [|e evs IH]; intros w f1 f2 Hf; simpl; [exact Hf|].
  apply IH. destruct (naturalCompletion e w); [reflexivity|].
  destruct e; simpl; auto; discriminate.
Qed.

(** C7, amended: when no natural completion has occurred since the last
    start, pausing and resetting reloads the duration of the current mode
    (study 1500, short break 300, long break 900) and keeps the mode; when one
    has, as it has whenever one occurred since the last start or reset, reset
    moves to the next mode and shows no completion modal. *)
Theorem resetTimer_reload_or_advance (resetLabel : string) (evs : list Event) :
  resetLabel <> "Next Mode" ->
  let w := run evs (initialWorld resetLabel) in
  let completed := completedSince clearsStart evs (initialWorld resetLabel) false in
  (completed = false ->
     mode (pomodoro (resetTimer (pauseTimer w))) = mode (pomodoro w) /\
     time (pomodoro (resetTimer (pauseTimer w))) = modeDuration (mode (pomodoro w)) /\
     effects (resetTimer (pauseTimer w)) = effects w) /\
  (completed = true ->
     mode (pomodoro (resetTimer w)) = fst (endTransition (mode (pomodoro w))) /\
     time (pomodoro (resetTimer w)) =
       modeDuration (fst (endTransition (mode (pomodoro w)))) /\
     effects (resetTimer w) = effects w) /\
  (completedSince clearsStartOrReset evs (initialWorld resetLabel) false = true ->
     completed = true) /\
  modeDuration "study" = 1500 /\ modeDuration "short" = 300 /\ modeDuration "long" = 900.
Proof.
  intros Hlabel w completed.
  destruct (resetButtonInvariant_run evs _ _ (resetButtonInvariant_initial _ Hlabel))
    as (_ & _ & Hflag).
  change (completed = true <-> resetBtnText w = "Next Mode") in Hflag.
  assert (Hmono : completedSince clearsStartOrReset evs (initialWorld resetLabel) false
                    = true -> completed = true)
    by (apply completedSince_start_or_reset; auto).
  clearbody w completed.
  split; [|split; [|split; [|repeat split]]].
  - intros Hc. rewrite Hc in Hflag.
    assert (Hb : String.eqb (resetBtnText w) "Next Mode" = false).
    { apply String.eqb_neq. intros E. apply Hflag in E. discriminate. }
    unfold resetTimer. rewrite !resetBtnText_pauseTimer, Hb.
    rewrite pomodoro_set_resetBtnText, effects_set_resetBtnText.
    rewrite pomodoro_setPomodoroMode, effects_setPomodoroMode.
    rewrite !pomodoro_pauseTimer, !effects_pauseTimer. cbn [mode time]. auto.
  - intros Hc. rewrite Hc in Hflag.
    assert (Hb : String.eqb (resetBtnText w) "Next Mode" = true).
    { apply String.eqb_eq. now apply Hflag. }
    unfold resetTimer. rewrite resetBtnText_pauseTimer, Hb.
    rewrite pomodoro_handleTimerEnd, effects_handleTimerEnd.
    rewrite pomodoro_pauseTimer, effects_pauseTimer. cbn [mode time]. auto.
  - exact Hmono.
Qed.


Lemma resetTimer_reload_or_advance_witness :
  (mode (pomodoro (resetTimer (pauseTimer (run [EvStart; EvTick; EvTick] (initialWorld "Reset"))))) =
     "study" /\
   time (pomodoro (resetTimer (pauseTimer (run [EvStart; EvTick; EvTick] (initialWorld "Reset"))))) =
     1500) /\
  (mode (pomodoro (resetTimer (run (sessionEvents ++ [EvReset]) (initialWorld "Reset")))) = "short" /\
   effects (resetTimer (run (sessionEvents ++ [EvReset]) (initialWorld "Reset"))) =
   effects (run (sessionEvents ++ [EvReset]) (initialWorld "Reset"))).
Proof.
  assert (Hlabel : "Reset" <> "Next Mode") by discriminate.
  split.
  - destruct (resetTimer_reload_or_advance "Reset" [EvStart; EvTick; EvTick] Hlabel)
      as (Hreload & _).
    destruct (Hreload eq_refl) as (Hm & Ht & _).
    split; [exact Hm | exact Ht].
  - destruct (resetTimer_reload_or_advance "Reset" (sessionEvents ++ [EvReset]) Hlabel)
      as (_ & Hadvance & _).
    assert (Hc : completedSince clearsStart (sessionEvents ++ [EvReset])
                   (initialWorld "Reset") false = true)
      by (vm_compute; reflexivity).
    destruct (Hadvance Hc) as (Hm & _ & He).
    split; [|exact He].
    rewrite Hm. vm_compute. reflexivity.
Defined.

(** C7 as stated fails: after a session has run to its end and reset has
    moved to the next mode once, no completion has occurred since that reset,
    yet the button still reads 'Next Mode' and pause then reset changes the
    mode again. *)
Lemma resetTimer_since_reset_counterexample :
  ~ (forall evs : list Event,
       completedSince clearsStartOrReset evs freshWorld false = false ->
       mode (pomodoro (resetTimer (pauseTimer (run evs freshWorld)))) =
         mode (pomodoro (run evs freshWorld)) /\
       time (pomodoro (resetTimer (pauseTimer (run evs freshWorld)))) =
         modeDuration (mode (pomodoro (run evs freshWorld)))).
Proof.
  intros H. destruct (H (sessionEvents ++ [EvReset])%list) as [Hm _].
  - vm_compute. reflexivity.
  - vm_compute in Hm. discriminate.
Qed.

(** ** Task status and the streak *)


Lemma tasks_emit (e : Effect) (w : World) : tasks (emit e w) = tasks w.
Proof. reflexivity. Qed.


Lemma tasks_checkStreakMilestones (n : Z) (d : string) (w : World) :
  tasks (checkStreakMilestones n d w) = tasks w.
Proof.
  unfold checkStreakMilestones.
  destruct (negb _); [|reflexivity].
  destruct (List.find _ _) as [m|]; [|reflexivity].
  destruct (negb _); reflexivity.
Qed.


Lemma tasks_updateStreak (b : bool) (c : Clock) (w : World) :
  tasks (updateStreak b c w) = tasks w.
Proof.
  unfold updateStreak, saveState. rewrite !tasks_emit. destruct b.
  - destruct (strictEq _ (todayString c)); [reflexivity|].
    destruct (truthy _); [destruct (strictEq _ _)|]; cbv beta iota zeta;
      now rewrite tasks_checkStreakMilestones.
  - destruct (truthy _); [destruct (strLt _ _)|]; reflexivity.
Qed.



(** ** Rejected input *)

(** C9, amended: the goal form with hours that are not positive (or not
    a number) changes nothing at all; saving a name that is empty once
    trimmed keeps the user name and every saved field, and shows the error
    modal. *)
Theorem invalid_input_rejected :
  (forall (subject : string) (hours : option Z) (w : World),
     hours = None \/ (exists h, hours = Some h /\ h <= 0) ->
     goalFormSubmit subject hours w = w) /\
  (forall (nameInput majorInput levelInput : string) (w : World),
     trim nameInput = "" ->
     let w' := saveSettings "name" nameInput majorInput levelInput w in
     userName w' = userName w /\
     snapshot w' = snapshot w /\
     effects w' = SaveState (snapshot w) :: ShowModal ModalNameError :: effects w).
Proof.
  split.
  - intros subject hours w [->|(h & -> & Hh)]; [reflexivity|].
    unfold goalFormSubmit.
    destruct (Z.ltb_spec 0 h) as [Hpos|_]; [lia|].
    now rewrite andb_false_r.
  - intros nameInput majorInput levelInput w Hname w'. subst w'.
    unfold saveSettings. rewrite Hname. repeat split.
Qed.

Lemma invalid_input_rejected_witness :
  goalFormSubmit "Biology" (Some 0) freshWorld = freshWorld /\
  goalFormSubmit "Biology" (Some (-3)) afterFirstCompletion = afterFirstCompletion /\
  goalFormSubmit "Biology" None freshWorld = freshWorld /\
  userName (saveSettings "name" "   " "" "" afterFirstCompletion) =
    userName afterFirstCompletion /\
  effects (saveSettings "name" "" "" "" freshWorld) =
    [SaveState (snapshot freshWorld); ShowModal ModalNameError].
Proof.
  destruct invalid_input_rejected as (Hgoal & Hname).
  split; [apply Hgoal; right; exists 0; split; [reflexivity | lia]|].
  split; [apply Hgoal; right; exists (-3); split; [reflexivity | lia]|].
  split; [apply Hgoal; left; reflexivity|].
  split.
  - apply (Hname "   " "" "" afterFirstCompletion). reflexivity.
  - apply (Hname "" "" "" freshWorld). reflexivity.
Defined.

(** C9 as stated fails: the goal form handler shows no message when it
    rejects hours that are not positive. *)
Lemma goalFormSubmit_silent_counterexample :
  ~ (forall (subject : string) (h : Z) (w : World),
       h <= 0 ->
       goals (goalFormSubmit subject (Some h) w) = goals w /\
       (countEffects isModal w <
        countEffects isModal (goalFormSubmit subject (Some h) w))%nat).
Proof.
  intros H. destruct (H "Biology" 0 freshWorld) as [_ Hshown]; [lia|].
  vm_compute in Hshown. lia.
Qed.

(** ** Task ids *)

Lemma mathMax_ge (xs : list Z) :
  forall x, x <= mathMax x xs /\ (forall y, In y xs -> y <= mathMax x xs).
Proof.
  unfold mathMax. induction xs as [|a xs IH]; intros x; simpl.
  - split; [lia | tauto].
  - destruct (IH (Z.max x a)) as [Hx Hys]. split; [lia|].
    intros y [<-|Hy]; [lia | now apply Hys].
Qed.

Lemma mathMax_member (xs : list Z) : forall x, In (mathMax x xs) (x :: xs).
Proof.
  unfold mathMax. induction xs as [|a xs IH]; intros x; simpl; [tauto|].
  destruct (IH (Z.max x a)) as [H|H].
  - destruct (Z.max_spec x a) as [[_ E]|[_ E]]; rewrite E in *; auto.
  - auto.
Qed.

Lemma getNextTaskId_above (w : World) (t : Task) :
  In t (tasks w) -> id t < getNextTaskId w.
Proof.
  intros Ht. apply (List.in_map id) in Ht. unfold getNextTaskId.
  destruct (List.map id (tasks w)) as [|x xs]; [destruct Ht|].
  destruct (mathMax_ge xs x) as [Hx Hxs].
  destruct Ht as [<-|Ht]; [lia|]. specialize (Hxs _ Ht). lia.
Qed.

Lemma map_id_alter (f : Task -> Task) (k : nat) (l : list Task) :
  (forall t, id (f t) = id t) ->
  List.map id (alter f k l) = List.map id l.
Proof.
  intros Hf. revert k. induction l as [|t l IH]; intros k; [reflexivity|].
  destruct k as [|k]; simpl.
  - now rewrite Hf.
  - f_equal. apply IH.
Qed.

Lemma NoDup_map_id_filter (p : Task -> bool) (l : list Task) :
  List.NoDup (List.map id l) -> List.NoDup (List.map id (List.filter p l)).
Proof.
  induction l as [|t l IH]; simpl; intros H; [exact H|].
  inversion H as [|? ? Hnotin Hrest]; subst.
  destruct (p t); simpl; [|now apply IH].
  constructor; [|now apply IH].
  intros Hin. apply Hnotin. apply List.in_map_iff in Hin as (t' & E & Ht').
  apply List.filter_In in Ht' as [Ht' _]. rewrite <- E. now apply List.in_map.
Qed.

Lemma NoDup_added (w : World) (t : Task) :
  id t = getNextTaskId w ->
  List.NoDup (List.map id (tasks w)) ->
  List.NoDup (List.map id (tasks w ++ [t])).
Proof.
  intros Hid Hnd. rewrite List.map_app. simpl.
  apply List.NoDup_app; [exact Hnd | repeat constructor; intros [] |].
  intros a Ha [<-|[]].
  apply List.in_map_iff in Ha as (t' & E & Ht').
  apply getNextTaskId_above in Ht'. lia.
Qed.

Lemma tasks_toggleTaskStatus_ids (c : Clock) (i : Z) (w : World) :
  List.map id (tasks (toggleTaskStatus c i w)) = List.map id (tasks w).
Proof.
  destruct (list_find (fun t => id t = i) (tasks w)) as [[k x]|] eqn:Hf;
    [|now rewrite toggleTaskStatus_missing].
  destruct (string_dec (status x) "pending") as [Hs|Hs].
  - rewrite (toggleTaskStatus_pending c i w k x Hf Hs).
    unfold showModal, saveState. rewrite !tasks_emit, tasks_updateStreak.
    now apply map_id_alter.
  - rewrite (toggleTaskStatus_not_pending c i w k x Hf Hs).
    unfold showModal, saveState. rewrite !tasks_emit.
    now apply map_id_alter.
Qed.

Lemma tasks_taskFormSubmit_add t s c d p (w : World) :
  tasks (taskFormSubmit FieldEmpty t s c d p w) =
  (tasks w ++ [mkTask (getNextTaskId w) t s c d p "pending"])%list.
Proof. reflexivity. Qed.

Lemma tasks_taskFormSubmit_edit_ids n t s c d p (w : World) :
  List.map id (tasks (taskFormSubmit (FieldNumber n) t s c d p w)) =
  List.map id (tasks w).
Proof.
  unfold taskFormSubmit.
  destruct (list_find _ _) as [[k x]|]; [|reflexivity].
  unfold showModal, saveState. rewrite !tasks_emit.
  now apply map_id_alter.
Qed.

Lemma NoDup_ids_step (e : Event) (w : World) :
  List.NoDup (List.map id (tasks w)) -> List.NoDup (List.map id (tasks (step e w))).
Proof.
  intros H. destruct e; cbn [step].
  - destruct field.
    + rewrite tasks_taskFormSubmit_add. now apply NoDup_added.
    + now rewrite tasks_taskFormSubmit_edit_ids.
    + exact H.
  - unfold deleteTask, showModal, saveState. rewrite !tasks_emit.
    now apply NoDup_map_id_filter.
  - now rewrite tasks_toggleTaskStatus_ids.
  - unfold saveSettings, saveState. rewrite tasks_emit. split_tests; exact H.
  - unfold goalFormSubmit. split_tests; exact H.
  - now rewrite tasks_toggleTheme.
  - now rewrite (same_snapshot_tasks _ _ (snapshot_startTimer w)).
  - now rewrite (same_snapshot_tasks _ _ (snapshot_pauseTimer w)).
  - now rewrite (same_snapshot_tasks _ _ (snapshot_resetTimer w)).
  - now rewrite (same_snapshot_tasks _ _ (snapshot_setPomodoroMode m w)).
  - now rewrite (same_snapshot_tasks _ _ (snapshot_tick w)).
  - unfold reconcileOnLoad. now rewrite tasks_updateStreak.
Qed.



(** * Further properties *)

(** ** The countdown *)

Lemma modeDuration_nonneg (m : string) : 0 <= modeDuration m.
Proof. unfold modeDuration. split_tests; lia. Qed.

Lemma timeInRange_fresh (m : string) (p : Pomodoro) (w : World) :
  pomodoro w = mkPomodoro (modeDuration m) m (running p) (intervalId p) ->
  timeInRange w.
Proof.
  intros H. unfold timeInRange. rewrite H. cbn [time mode].
  pose proof (modeDuration_nonneg m). lia.
Qed.

Lemma timeInRange_view (w1 w2 : World) :
  timerView w1 = timerView w2 -> timeInRange w1 -> timeInRange w2.
Proof. unfold timerView, timeInRange. intros [= Hp _ _]. now rewrite Hp. Qed.

Lemma timeInRange_step (e : Event) (w : World) :
  timerInvariant w -> timeInRange w -> timeInRange (step e w).
Proof.
  intros Hinv H. pose proof (timerView_step e w) as Hview.
  destruct e; cbn [step] in *;
    try (apply (timeInRange_view w); [now symmetry | exact H]).
  - unfold toggleTheme, saveState. cbv zeta.
    apply (timeInRange_view _ _ (eq_sym (timerView_emit _ _))).
    apply (timeInRange_fresh (mode (pomodoro w)) (mkPomodoro 0 "" false (intervalId (pomodoro w)))).
    now rewrite pomodoro_setPomodoroMode.
  - unfold startTimer. destruct (running (pomodoro w)); exact H.
  - unfold timeInRange. rewrite pomodoro_pauseTimer. exact H.
  - unfold resetTimer. destruct (String.eqb _ _).
    + apply (timeInRange_fresh (fst (endTransition (mode (pomodoro (pauseTimer w)))))
               (mkPomodoro 0 "" false (intervalId (pomodoro (pauseTimer w))))).
      now rewrite pomodoro_handleTimerEnd.
    + apply (timeInRange_fresh (mode (pomodoro (pauseTimer w)))
               (mkPomodoro 0 "" false (intervalId (pomodoro (pauseTimer w))))).
      now rewrite pomodoro_set_resetBtnText, pomodoro_setPomodoroMode.
  - apply (timeInRange_fresh m (mkPomodoro 0 "" false (intervalId (pomodoro w)))).
    now rewrite pomodoro_setPomodoroMode.
  - destruct (running (pomodoro w)) eqn:Hr; [|now rewrite tick_idle].
    rewrite tick_running by assumption.
    destruct (Z.lt_ge_cases 1 (time (pomodoro w))) as [Hgt|Hle].
    + rewrite intervalCallback_counting by assumption.
      unfold timeInRange in *. cbn [set_time set_pomodoro pomodoro time mode]. lia.
    + destruct (intervalCallback_completes w Hinv Hr Hle) as (Hp & _).
      apply (timeInRange_fresh (fst (endTransition (mode (pomodoro w))))
               (mkPomodoro 0 "" false (intervalId (pomodoro w)))).
      exact Hp.
Qed.

Lemma filter_twice {A : Type} (p : A -> bool) (l : list A) :
  List.filter p (List.filter p l) = List.filter p l.
Proof.
  induction l as [|a l IH]; [reflexivity|]. simpl.
  destruct (p a) eqn:Hp; simpl; [rewrite Hp; f_equal|]; exact IH.
Qed.

Lemma pauseTimer_twice (w : World) : pauseTimer (pauseTimer w) = pauseTimer w.
Proof.
  destruct w as [? ? ? ? ? [? ? ? [h|]] ? ? ? ? ? ?]; [|reflexivity].
  unfold pauseTimer, clearInterval, set_running, set_pomodoro, set_liveIntervals.
  cbn [pomodoro liveIntervals tasks notes theme goals streak userName academicProfile
       resetBtnText nextHandle effects time mode running intervalId].
  now rewrite filter_twice.
Qed.

(** Reads a field through the field updates around it. *)
Ltac project_fields :=
  cbn [set_tasks set_theme set_goals set_streak set_pomodoro set_userName
       set_academicProfile set_resetBtnText set_liveIntervals set_nextHandle emit
       set_count set_lastCompletionDate set_lastRewardedDay
       set_time set_mode set_running set_intervalId
       tasks notes theme goals streak pomodoro userName academicProfile
       resetBtnText liveIntervals nextHandle effects
       time mode running intervalId count lastCompletionDate lastRewardedDay].

Lemma nextHandle_pauseTimer (w : World) : nextHandle (pauseTimer w) = nextHandle w.
Proof. unfold pauseTimer, clearInterval. now destruct (intervalId (pomodoro w)). Qed.

Lemma startTimer_idle (w : World) :
  running (pomodoro w) = false ->
  startTimer w =
  set_intervalId (Some (nextHandle w))
    (set_nextHandle (S (nextHandle w))
       (set_liveIntervals (liveIntervals w ++ [nextHandle w])
          (set_resetBtnText "Reset" (set_running true w)))).
Proof. intros H. unfold startTimer. now rewrite H. Qed.

Lemma startTimer_running (w : World) :
  running (pomodoro w) = true -> startTimer w = w.
Proof. intros H. unfold startTimer. now rewrite H. Qed.

(** ** The theme *)

Lemma same_snapshot_theme (w1 w2 : World) :
  snapshot w1 = snapshot w2 -> theme w1 = theme w2.
Proof. intros H. exact (f_equal snap_theme H). Qed.

Lemma theme_updateStreak (b : bool) (c : Clock) (w : World) :
  theme (updateStreak b c w) = theme w.
Proof.
  unfold updateStreak, saveState, checkStreakMilestones. project_fields. destruct b.
  - destruct (strictEq _ (todayString c)); [reflexivity|].
    destruct (truthy _); [destruct (strictEq _ _)|]; cbv beta iota zeta;
      project_fields; split_tests; reflexivity.
  - destruct (truthy _); [destruct (strLt _ _)|]; reflexivity.
Qed.

Lemma theme_step (e : Event) (w : World) :
  e <> EvToggleTheme -> theme (step e w) = theme w.
Proof.
  intros He. destruct e; cbn [step]; try contradiction.
  - unfold taskFormSubmit. destruct field; try reflexivity.
    now destruct (list_find _ _) as [[k x]|].
  - reflexivity.
  - destruct (list_find (fun t => id t = i) (tasks w)) as [[k x]|] eqn:Hf;
      [|now rewrite toggleTaskStatus_missing].
    destruct (string_dec (status x) "pending") as [Hs|Hs].
    + rewrite (toggleTaskStatus_pending c i w k x Hf Hs).
      unfold showModal, saveState. project_fields. now rewrite theme_updateStreak.
    + now rewrite (toggleTaskStatus_not_pending c i w k x Hf Hs).
  - unfold saveSettings. split_tests; reflexivity.
  - unfold goalFormSubmit. split_tests; reflexivity.
  - apply (same_snapshot_theme _ _ (snapshot_startTimer w)).
  - apply (same_snapshot_theme _ _ (snapshot_pauseTimer w)).
  - apply (same_snapshot_theme _ _ (snapshot_resetTimer w)).
  - apply (same_snapshot_theme _ _ (snapshot_setPomodoroMode m w)).
  - apply (same_snapshot_theme _ _ (snapshot_tick w)).
  - apply theme_updateStreak.
Qed.

Lemma theme_toggleTheme (w : World) :
  theme (toggleTheme w) = if String.eqb (theme w) "light" then "dark" else "light".
Proof.
  unfold toggleTheme, saveState. cbv zeta. project_fields.
  now rewrite (same_snapshot_theme _ _ (snapshot_setPomodoroMode _ _)).
Qed.

(** The two behaviours of the milestone check, for any input. *)
Lemma checkStreakMilestones_shows :
  (forall (n : Z) (today : string) (w : World),
     lastRewardedDay (streak w) <> Some today /\ In n STREAK_MILESTONES ->
     checkStreakMilestones n today w =
     set_lastRewardedDay (Some today) (showModal (ModalMilestone n) w)) /\
  (forall (n : Z) (today : string) (w : World),
     ~ (lastRewardedDay (streak w) <> Some today /\ In n STREAK_MILESTONES) ->
     checkStreakMilestones n today w = w).
Proof.
  split.
  - intros n today w [Hday%strictEq_false Hin].
    unfold checkStreakMilestones.
    rewrite Hday, (find_milestone_member n Hin). simpl.
    destruct (Z.eqb_spec n 0) as [->|_]; [|reflexivity].
    exfalso. revert Hin. unfold STREAK_MILESTONES. simpl. intuition discriminate.
  - intros n today w Hnot. unfold checkStreakMilestones.
    destruct (strictEq _ today) eqn:Hday; [reflexivity|].
    rewrite find_milestone_other; [reflexivity|].
    intros Hin. apply Hnot. split; [now apply strictEq_false | exact Hin].
Qed.

(** ** The streak on the dashboard *)

Lemma lastRewardedDay_updateStreak_kept (c : Clock) (w : World) :
  strictEq (lastCompletionDate (streak w)) (todayString c) = true ->
  recordCompletion c w =
  saveState (emit (SetStreakText (count (streak w)))
               (set_lastCompletionDate (Some (todayString c)) w)).
Proof. intros H. unfold recordCompletion, updateStreak. now rewrite H. Qed.

(** What a completion on a new day does before the milestone check. *)
Lemma recordCompletion_new_day_unfold (c : Clock) (w : World) :
  strictEq (lastCompletionDate (streak w)) (todayString c) = false ->
  let n := if strictEq (lastCompletionDate (streak w)) (yesterdayString c)
           then count (streak w) + 1 else 1 in
  let w3 := set_lastCompletionDate (Some (todayString c)) (set_count n w) in
  recordCompletion c w =
  let w4 := checkStreakMilestones n (todayString c) w3 in
  saveState (emit (SetStreakText (count (streak w4))) w4).
Proof.
  intros Ht. unfold recordCompletion, updateStreak. rewrite Ht. cbv zeta.
  destruct (strictEq _ (yesterdayString c)) eqn:Hy.
  - now rewrite (yesterday_truthy c _ Hy).
  - now destruct (truthy _).
Qed.

(** X1: recording a completion shows a milestone exactly when the streak is
    continued from yesterday (and not already counted today), today has not
    been rewarded, and the count it reaches is 5, 10, 20, 50 or 100: then the
    modal carries the new count and today becomes the rewarded day; in every
    other case no milestone modal is shown and the rewarded day is kept. *)
Theorem milestone_only_on_continued_streak (c : Clock) (w : World) :
  let s := streak w in
  let s' := streak (recordCompletion c w) in
  let shown :=
    lastCompletionDate s = Some (yesterdayString c) /\
    lastCompletionDate s <> Some (todayString c) /\
    lastRewardedDay s <> Some (todayString c) /\
    In (count s + 1) STREAK_MILESTONES in
  (shown ->
     (exists doc,
        effects (recordCompletion c w) =
        SaveState doc :: SetStreakText (count s + 1)
          :: ShowModal (ModalMilestone (count s + 1)) :: effects w) /\
     lastRewardedDay s' = Some (todayString c)) /\
  (~ shown ->
     countEffects isMilestoneModal (recordCompletion c w) =
       countEffects isMilestoneModal w /\
     lastRewardedDay s' = lastRewardedDay s).
Proof.
  intros s s' shown. subst s s' shown.
  destruct checkStreakMilestones_shows as [Hshow Hskip].
  split.
  - intros (Hy & Ht & Hr & Hin).
    apply strictEq_false in Ht. apply strictEq_true in Hy.
    rewrite (recordCompletion_new_day_unfold c w Ht), Hy. cbv zeta.
    rewrite Hshow by (split; [exact Hr | exact Hin]).
    unfold saveState, showModal. project_fields. split; [eauto | reflexivity].
  - intros Hnot.
    destruct (strictEq (lastCompletionDate (streak w)) (todayString c)) eqn:Ht.
    + rewrite (lastRewardedDay_updateStreak_kept c w Ht). split; reflexivity.
    + rewrite (recordCompletion_new_day_unfold c w Ht). cbv zeta.
      rewrite Hskip; [split; reflexivity|].
      project_fields. intros [Hr Hin]. apply Hnot.
      apply strictEq_false in Ht.
      destruct (strictEq (lastCompletionDate (streak w)) (yesterdayString c)) eqn:Hy.
      * apply strictEq_true in Hy. tauto.
      * exfalso. revert Hin. unfold STREAK_MILESTONES. simpl. intuition discriminate.
Qed.

Lemma milestone_only_on_continued_streak_witness :
  lastRewardedDay (streak (recordCompletion march11 fourDayStreak)) = Some "2024-03-11" /\
  countEffects isMilestoneModal (recordCompletion march14 fourDayStreak) =
    countEffects isMilestoneModal fourDayStreak.
Proof.
  split.
  - apply (milestone_only_on_continued_streak march11 fourDayStreak).
    split; [reflexivity|]. split; [discriminate|]. split; [discriminate|].
    vm_compute. tauto.
  - apply (milestone_only_on_continued_streak march14 fourDayStreak).
    intros [Hy _]. vm_compute in Hy. discriminate.
Defined.

Lemma streak_reconcileOnLoad (c : Clock) (w : World) :
  streak (reconcileOnLoad c w) =
  if truthy (lastCompletionDate (streak w)) &&
     strLt (lastCompletionDate (streak w)) (yesterdayString c)
  then mkStreak 0 None None else streak w.
Proof.
  unfold reconcileOnLoad, updateStreak.
  destruct (truthy _); [destruct (strLt _ _)|]; reflexivity.
Qed.

(** X2: at one reading of the clock whose strings are in order, the reset
    at load does not change what a completion counts: recording a completion
    after the check at load gives the count and the date that recording it
    without the check gives. *)
Theorem reconcile_keeps_next_count (c : Clock) (w : World) :
  String.ltb (todayString c) (yesterdayString c) = false ->
  count (streak (recordCompletion c (reconcileOnLoad c w))) =
    count (streak (recordCompletion c w)) /\
  lastCompletionDate (streak (recordCompletion c (reconcileOnLoad c w))) =
    lastCompletionDate (streak (recordCompletion c w)).
Proof.
  intros Hord. rewrite !lastCompletionDate_recordCompletion. split; [|reflexivity].
  rewrite !count_recordCompletion, streak_reconcileOnLoad.
  destruct (truthy (lastCompletionDate (streak w))) eqn:Htr; [|reflexivity].
  destruct (strLt (lastCompletionDate (streak w)) (yesterdayString c)) eqn:Hlt;
    [|reflexivity].
  cbn [andb count lastCompletionDate strictEq].
  destruct (strictEq (lastCompletionDate (streak w)) (todayString c)) eqn:Ht.
  - apply strictEq_true in Ht. rewrite Ht in Hlt. simpl in Hlt. congruence.
  - destruct (strictEq (lastCompletionDate (streak w)) (yesterdayString c)) eqn:Hy;
      [|reflexivity].
    apply strictEq_true in Hy. rewrite Hy in Hlt. simpl in Hlt.
    now rewrite ltb_irrefl in Hlt.
Qed.

Lemma reconcile_keeps_next_count_witness :
  count (streak (recordCompletion march14 (reconcileOnLoad march14 fourDayStreak))) =
  count (streak (recordCompletion march14 fourDayStreak)).
Proof.
  apply (reconcile_keeps_next_count march14 fourDayStreak). reflexivity.
Defined.

(** ** The task list *)


Lemma list_find_present (i : Z) (l : list Task) :
  In i (List.map id l) ->
  exists k x, list_find (fun t => id t = i) l = Some (k, x) /\ id x = i.
Proof.
  intros H. apply List.in_map_iff in H as (t & E & Ht).
  destruct (list_find (fun t => id t = i) l) as [[k x]|] eqn:Hf.
  - exists k, x. split; [reflexivity|]. now apply list_find_Some in Hf.
  - apply list_find_None in Hf. rewrite List.Forall_forall in Hf.
    now destruct (Hf t Ht).
Qed.

Lemma filter_other_ids_all (i : Z) (l : list Task) :
  ~ In i (List.map id l) -> List.filter (fun t => negb (Z.eqb (id t) i)) l = l.
Proof.
  induction l as [|t l IH]; [reflexivity|]. simpl. intros H.
  destruct (Z.eqb_spec (id t) i) as [E|_]; [tauto|]. simpl. f_equal. tauto.
Qed.

Lemma set_tasks_same (w : World) : set_tasks (tasks w) w = w.
Proof. now destruct w. Qed.



Lemma length_filter_one (i : Z) (l : list Task) :
  List.NoDup (List.map id l) -> In i (List.map id l) ->
  (length (List.filter (fun t => negb (Z.eqb (id t) i)) l) + 1 = length l)%nat.
Proof.
  induction l as [|t l IH]; simpl; [tauto|]. intros Hnd Hin.
  inversion Hnd as [|? ? Hnot Hrest]; subst.
  destruct (Z.eqb_spec (id t) i) as [E|E]; simpl.
  - subst i. rewrite filter_other_ids_all by exact Hnot. lia.
  - destruct Hin as [Hin|Hin]; [contradiction|]. rewrite <- (IH Hrest Hin). lia.
Qed.

Lemma getNextTaskId_spec (w : World) :
  tasks w <> [] ->
  (exists t, In t (tasks w) /\ getNextTaskId w = id t + 1) /\
  (forall t, In t (tasks w) -> id t < getNextTaskId w).
Proof.
  intros H. split; [|intros t; apply getNextTaskId_above].
  unfold getNextTaskId. destruct (tasks w) as [|t0 l] eqn:E; [contradiction|].
  pose proof (mathMax_member (List.map id l) (id t0)) as Hin.
  change (In (mathMax (id t0) (List.map id l)) (List.map id (t0 :: l))) in Hin.
  apply List.in_map_iff in Hin as (t & Ht & Hmem).
  exists t. split; [exact Hmem|]. simpl. now rewrite Ht.
Qed.

Lemma getNextTaskId_empty (w : World) : tasks w = [] -> getNextTaskId w = 1.
Proof. intros H. unfold getNextTaskId. now rewrite H. Qed.

Lemma getNextTaskId_positive (w : World) :
  tasksWellFormed (tasks w) -> 1 <= getNextTaskId w.
Proof.
  intros Hwf. destruct (tasks w) as [|t0 l] eqn:E.
  - rewrite getNextTaskId_empty by exact E. lia.
  - destruct (getNextTaskId_spec w) as [(t & Ht & ->) _]; [rewrite E; discriminate|].
    unfold tasksWellFormed in Hwf. rewrite List.Forall_forall in Hwf.
    rewrite <- E in Hwf. destruct (Hwf t Ht). lia.
Qed.

Lemma tasksWellFormed_alter (f : Task -> Task) (k : nat) (l : list Task) :
  (forall t, (status t = "pending" \/ status t = "completed") /\ 1 <= id t ->
             (status (f t) = "pending" \/ status (f t) = "completed") /\ 1 <= id (f t)) ->
  tasksWellFormed l -> tasksWellFormed (alter f k l).
Proof.
  intros Hf. unfold tasksWellFormed. revert k.
  induction l as [|t l IH]; intros k H; [exact H|].
  inversion H as [|? ? Ht Hl]; subst.
  destruct k as [|k]; cbn.
  - constructor; [now apply Hf | exact Hl].
  - constructor; [exact Ht | now apply IH].
Qed.

Lemma tasksWellFormed_filter (p : Task -> bool) (l : list Task) :
  tasksWellFormed l -> tasksWellFormed (List.filter p l).
Proof.
  unfold tasksWellFormed. rewrite !List.Forall_forall.
  intros H t Ht. apply List.filter_In in Ht as [Ht _]. now apply H.
Qed.

Lemma tasksWellFormed_step (e : Event) (w : World) :
  tasksWellFormed (tasks w) -> tasksWellFormed (tasks (step e w)).
Proof.
  intros H. destruct e; cbn [step].
  - destruct field.
    + rewrite tasks_taskFormSubmit_add. unfold tasksWellFormed.
      apply List.Forall_app. split; [exact H|].
      constructor; [|constructor]. cbn [status id].
      split; [now left | now apply getNextTaskId_positive].
    + unfold taskFormSubmit.
      destruct (list_find _ _) as [[k x]|]; [|exact H].
      unfold showModal, saveState. project_fields.
      apply tasksWellFormed_alter; [|exact H]. intros t Ht. exact Ht.
    + exact H.
  - unfold deleteTask, showModal, saveState. project_fields.
    now apply tasksWellFormed_filter.
  - destruct (list_find (fun t => id t = i) (tasks w)) as [[k x]|] eqn:Hf;
      [|now rewrite toggleTaskStatus_missing].
    destruct (string_dec (status x) "pending") as [Hs|Hs].
    + rewrite (toggleTaskStatus_pending c i w k x Hf Hs).
      unfold showModal, saveState. project_fields. rewrite tasks_updateStreak.
      project_fields. apply tasksWellFormed_alter; [|exact H].
      intros t [_ Ht]. cbn [setStatus status id]. split; [now right | exact Ht].
    + rewrite (toggleTaskStatus_not_pending c i w k x Hf Hs).
      unfold showModal, saveState. project_fields.
      apply tasksWellFormed_alter; [|exact H].
      intros t [_ Ht]. cbn [setStatus status id]. split; [now left | exact Ht].
  - unfold saveSettings, saveState. project_fields. split_tests; exact H.
  - unfold goalFormSubmit. split_tests; exact H.
  - now rewrite tasks_toggleTheme.
  - now rewrite (same_snapshot_tasks _ _ (snapshot_startTimer w)).
  - now rewrite (same_snapshot_tasks _ _ (snapshot_pauseTimer w)).
  - now rewrite (same_snapshot_tasks _ _ (snapshot_resetTimer w)).
  - now rewrite (same_snapshot_tasks _ _ (snapshot_setPomodoroMode m w)).
  - now rewrite (same_snapshot_tasks _ _ (snapshot_tick w)).
  - unfold reconcileOnLoad. now rewrite tasks_updateStreak.
Qed.

Lemma status_counts (l : list Task) :
  tasksWellFormed l ->
  (length (List.filter (fun t => String.eqb (status t) "pending") l) +
   length (List.filter (fun t => String.eqb (status t) "completed") l) = length l)%nat.
Proof.
  induction 1 as [|t l [[Hs|Hs] _] _ IH]; [reflexivity| |]; simpl; rewrite Hs;
    simpl; lia.
Qed.






Lemma tasks_deleteTask (i : Z) (w : World) :
  tasks (deleteTask i w) = List.filter (fun t => negb (Z.eqb (id t) i)) (tasks w).
Proof. reflexivity. Qed.

Lemma In_tasks_deleteTask (i : Z) (w : World) (t : Task) :
  In t (tasks (deleteTask i w)) <-> In t (tasks w) /\ id t <> i.
Proof.
  rewrite tasks_deleteTask, List.filter_In, negb_true_iff, Z.eqb_neq. reflexivity.
Qed.

(** ** Goals and settings *)



Lemma trimStart_clean (s : string) : startsWithWhiteSpace (trimStart s) = false.
Proof.
  induction s as [|a s IH]; [reflexivity|]. simpl.
  destruct (isWhiteSpace a) eqn:Ha; [exact IH | simpl; exact Ha].
Qed.

Lemma trimStart_kept (s : string) : startsWithWhiteSpace s = false -> trimStart s = s.
Proof. destruct s as [|a s]; [reflexivity|]. simpl. now intros ->. Qed.

Lemma trimEnd_start (s : string) :
  startsWithWhiteSpace s = false -> startsWithWhiteSpace (trimEnd s) = false.
Proof. destruct s as [|a s]; [reflexivity|]. simpl. intros Ha. now rewrite Ha. Qed.

Lemma trimEnd_twice (s : string) : trimEnd (trimEnd s) = trimEnd s.
Proof.
  induction s as [|a s IH]; [reflexivity|]. simpl.
  destruct (isWhiteSpace a && String.eqb (trimEnd s) "") eqn:E; [reflexivity|].
  simpl. now rewrite IH, E.
Qed.


Lemma trim_twice (s : string) : trim (trim s) = trim s.
Proof.
  unfold trim.
  rewrite (trimStart_kept (trimEnd (trimStart s)))
    by apply trimEnd_start, trimStart_clean.
  apply trimEnd_twice.
Qed.

Lemma userName_updateStreak (b : bool) (c : Clock) (w : World) :
  userName (updateStreak b c w) = userName w.
Proof.
  unfold updateStreak, saveState, checkStreakMilestones. project_fields. destruct b.
  - destruct (strictEq _ (todayString c)); [reflexivity|].
    destruct (truthy _); [destruct (strictEq _ _)|]; cbv beta iota zeta;
      project_fields; split_tests; reflexivity.
  - destruct (truthy _); [destruct (strLt _ _)|]; reflexivity.
Qed.

Lemma same_snapshot_userName (w1 w2 : World) :
  snapshot w1 = snapshot w2 -> userName w1 = userName w2.
Proof. intros H. exact (f_equal snap_userName H). Qed.

Lemma userName_step (e : Event) (w : World) :
  userName (step e w) = userName w \/
  (userName (step e w) <> "" /\ exists input, userName (step e w) = trim input).
Proof.
  destruct e; cbn [step].
  - left. unfold taskFormSubmit. destruct field; try reflexivity.
    now destruct (list_find _ _) as [[k x]|].
  - now left.
  - left. destruct (list_find (fun t => id t = i) (tasks w)) as [[k x]|] eqn:Hf;
      [|now rewrite toggleTaskStatus_missing].
    destruct (string_dec (status x) "pending") as [Hs|Hs].
    + rewrite (toggleTaskStatus_pending c i w k x Hf Hs).
      unfold showModal, saveState. project_fields. now rewrite userName_updateStreak.
    + now rewrite (toggleTaskStatus_not_pending c i w k x Hf Hs).
  - unfold saveSettings.
    destruct (String.eqb type "name"); [|left; split_tests; reflexivity].
    destruct (String.eqb_spec (trim nameInput) "") as [E|E]; [now left|].
    right. cbn [negb]. unfold saveState, showModal. project_fields. eauto.
  - left. unfold goalFormSubmit. split_tests; reflexivity.
  - left. unfold toggleTheme, saveState. cbv zeta. project_fields.
    now rewrite (same_snapshot_userName _ _ (snapshot_setPomodoroMode _ _)).
  - left. apply (same_snapshot_userName _ _ (snapshot_startTimer w)).
  - left. apply (same_snapshot_userName _ _ (snapshot_pauseTimer w)).
  - left. apply (same_snapshot_userName _ _ (snapshot_resetTimer w)).
  - left. apply (same_snapshot_userName _ _ (snapshot_setPomodoroMode m w)).
  - left. apply (same_snapshot_userName _ _ (snapshot_tick w)).
  - left. apply userName_updateStreak.
Qed.

(** * The page across renderings and loads *)

(** ** What is saved *)

Lemma sameDocument_snapshot (w : World) : sameDocument (snapshot w) w.
Proof. unfold sameDocument, snapshot. cbn. repeat split; reflexivity. Qed.

Lemma sameDocument_ext (d : Snapshot) (w1 w2 : World) :
  snapshot w1 = snapshot w2 -> sameDocument d w1 -> sameDocument d w2.
Proof.
  unfold snapshot, sameDocument. intros [= Ht Hn Hth Hg Hu Hs Ha].
  now rewrite Ht, Hn, Hth, Hg, Hu, Hs, Ha.
Qed.

Lemma storageFollowsState_ext (w1 w2 : World) :
  snapshot w1 = snapshot w2 ->
  lastSaved (effects w1) = lastSaved (effects w2) ->
  storageFollowsState w1 -> storageFollowsState w2.
Proof.
  unfold storageFollowsState. intros Hs <-.
  destruct (lastSaved (effects w1)) as [d|].
  - now apply sameDocument_ext.
  - now rewrite <- Hs.
Qed.

Lemma storageFollowsState_saved (w : World) :
  lastSaved (effects w) = Some (snapshot w) -> storageFollowsState w.
Proof.
  unfold storageFollowsState. intros ->. apply sameDocument_snapshot.
Qed.

Lemma effects_startTimer (w : World) : effects (startTimer w) = effects w.
Proof. unfold startTimer. now destruct (running (pomodoro w)). Qed.

Lemma effects_resetTimer (w : World) : effects (resetTimer w) = effects w.
Proof.
  unfold resetTimer. destruct (String.eqb _ _).
  - rewrite effects_handleTimerEnd. apply effects_pauseTimer.
  - rewrite effects_set_resetBtnText, effects_setPomodoroMode. apply effects_pauseTimer.
Qed.

Lemma lastSaved_intervalCallback (w : World) :
  lastSaved (effects (intervalCallback w)) = lastSaved (effects w).
Proof.
  unfold intervalCallback. destruct (Z.leb _ _); [|reflexivity].
  rewrite effects_handleTimerEnd. cbn [lastSaved]. project_fields.
  now rewrite effects_clearInterval.
Qed.

Lemma lastSaved_tick (w : World) : lastSaved (effects (tick w)) = lastSaved (effects w).
Proof.
  unfold tick. generalize (liveIntervals w) as hs. intros hs. revert w.
  induction hs as [|h hs IH]; intros w; simpl; [reflexivity|].
  rewrite IH. destruct (existsb _ _); [apply lastSaved_intervalCallback | reflexivity].
Qed.

(** Every handler either ends in a save of the state it leaves, or changes
    no saved field and saves nothing. *)
Lemma step_saves (e : Event) (w : World) :
  lastSaved (effects (step e w)) = Some (snapshot (step e w)) \/
  (snapshot (step e w) = snapshot w /\
   lastSaved (effects (step e w)) = lastSaved (effects w)).
Proof.
  destruct e; cbn [step].
  - now left.
  - now left.
  - destruct (list_find (fun t => id t = i) (tasks w)) as [[k x]|] eqn:Hf.
    + left. destruct (string_dec (status x) "pending") as [Hs|Hs].
      * now rewrite (toggleTaskStatus_pending c i w k x Hf Hs).
      * now rewrite (toggleTaskStatus_not_pending c i w k x Hf Hs).
    + right. now rewrite toggleTaskStatus_missing.
  - now left.
  - unfold goalFormSubmit. destruct hours as [h|]; [|now right].
    destruct (negb _ && _); [now left | now right].
  - now left.
  - right. split; [apply snapshot_startTimer | now rewrite effects_startTimer].
  - right. split; [apply snapshot_pauseTimer | now rewrite effects_pauseTimer].
  - right. split; [apply snapshot_resetTimer | now rewrite effects_resetTimer].
  - right. split; [apply snapshot_setPomodoroMode | now rewrite effects_setPomodoroMode].
  - right. split; [apply snapshot_tick | apply lastSaved_tick].
  - now left.
Qed.

Lemma storageFollowsState_step (e : Event) (w : World) :
  storageFollowsState w -> storageFollowsState (step e w).
Proof.
  intros H. destruct (step_saves e w) as [Hs|[Hs Hl]].
  - now apply storageFollowsState_saved.
  - apply (storageFollowsState_ext w); [now symmetry | now symmetry | exact H].
Qed.

Lemma userName_trimmed_step (e : Event) (w : World) :
  trim (userName w) = userName w -> trim (userName (step e w)) = userName (step e w).
Proof.
  intros H. destruct (userName_step e w) as [->|(_ & input & ->)];
    [exact H | apply trim_twice].
Qed.

Lemma themeValid_step (e : Event) (w : World) : themeValid w -> themeValid (step e w).
Proof.
  intros H.
  assert (He : e = EvToggleTheme \/ e <> EvToggleTheme)
    by (destruct e; (now left) || (right; discriminate)).
  destruct He as [->|He].
  - unfold themeValid. cbn [step]. rewrite theme_toggleTheme.
    destruct H as [-> | ->]; [right | left]; reflexivity.
  - unfold themeValid. now rewrite theme_step.
Qed.

Lemma pageInvariant_step (e : Event) (w : World) :
  pageInvariant w -> pageInvariant (step e w).
Proof.
  intros (Hs & Hnd & Hwf & Hst & Hti & Htr & Hth & Hu).
  split; [now apply storageFollowsState_step|].
  split; [now apply NoDup_ids_step|].
  split; [now apply tasksWellFormed_step|].
  split; [now apply streakWellFormed_step|].
  split; [now apply timerInvariant_step|].
  split; [now apply timeInRange_step|].
  split; [now apply themeValid_step | now apply userName_trimmed_step].
Qed.

(** ** Saving and loading *)

Lemma orDefaultString_empty (s : string) : orDefaultString (Some s) "" = s.
Proof.
  unfold orDefaultString. destruct (String.eqb_spec s ""); [now subst|reflexivity].
Qed.

(** X5: what [saveState] writes, [loadState] reads back: the tasks, notes,
    goals, user name, streak and profile of the saved state, and its theme,
    except that an empty theme is read as 'light'; the timer, the intervals
    and the label of the reset button of the loading page are not touched. *)
Theorem save_load_round_trip (w w0 : World) :
  let w' := loadState (storedBy (saveState w)) w0 in
  tasks w' = tasks w /\
  notes w' = notes w /\
  theme w' = (if String.eqb (theme w) "" then "light" else theme w) /\
  goals w' = goals w /\
  userName w' = userName w /\
  streak w' = streak w /\
  academicProfile w' = academicProfile w /\
  timerView w' = timerView w0 /\
  effects w' = effects w0.
Proof.
  intros w'. subst w'. unfold storedBy, saveState.
  cbn [emit effects lastSaved]. unfold loadState, storeDoc, snapshot, timerView.
  cbn [stored_tasks stored_notes stored_theme stored_goals stored_userName
       stored_streak stored_academicProfile snap_tasks snap_notes snap_theme
       snap_goals snap_userName snap_streak snap_academicProfile orDefault].
  cbv zeta. unfold set_notes. project_fields.
  rewrite !orDefaultString_empty.
  split; [reflexivity|]. split; [reflexivity|].
  split; [unfold orDefaultString; reflexivity|].
  split; [reflexivity|]. split; [reflexivity|]. split; [reflexivity|].
  split; [reflexivity|]. split; reflexivity.
Qed.


(** ** Dates *)

Lemma digitsValue_app (s1 s2 : string) (acc : Z) :
  digitsValue (s1 ++ s2) acc =
  match digitsValue s1 acc with
  | Some x => digitsValue s2 x
  | None => None
  end.
Proof.
  revert acc. induction s1 as [|a s1 IH]; intros acc; [reflexivity|].
  change (String a s1 ++ s2) with (String a (s1 ++ s2)). cbn [digitsValue].
  destruct (Nat.eqb (nat_of_ascii a) 45); [apply IH|].
  destruct (_ && _); [apply IH | reflexivity].
Qed.

Lemma numberToString_year (y : Z) :
  1000 <= y <= 9999 ->
  digitsValue (numberToString y) 0 = Some y /\ String.length (numberToString y) = 4%nat.
Proof.
  intros Hy.
  assert (Hall : forallb
            (fun c => forallb
               (fun r => let n := 100 * (Z.of_nat c + 10) + Z.of_nat r in
                         let s := numberToString n in
                         match digitsValue s 0 with
                         | Some x => Z.eqb x n && Nat.eqb (String.length s) 4
                         | None => false
                         end) (seq 0 100)) (seq 0 90) = true) by (vm_compute; reflexivity).
  rewrite forallb_forall in Hall.
  assert (Hc : In (Z.to_nat (y / 100 - 10)) (seq 0 90)).
  { apply in_seq.
    assert (10 <= y / 100) by (apply Z.div_le_lower_bound; lia).
    assert (y / 100 < 100) by (apply Z.div_lt_upper_bound; lia). lia. }
  specialize (Hall _ Hc). rewrite forallb_forall in Hall.
  assert (Hr : In (Z.to_nat (y mod 100)) (seq 0 100)).
  { apply in_seq. pose proof (Z.mod_pos_bound y 100). lia. }
  specialize (Hall _ Hr). cbv zeta in Hall.
  replace (100 * (Z.of_nat (Z.to_nat (y / 100 - 10)) + 10) +
           Z.of_nat (Z.to_nat (y mod 100))) with y in Hall.
  2:{ assert (10 <= y / 100) by (apply Z.div_le_lower_bound; lia).
      pose proof (Z.mod_pos_bound y 100).
      rewrite !Z2Nat.id by lia. pose proof (Z.div_mod y 100). lia. }
  destruct (digitsValue _ 0) as [x|]; [|discriminate].
  apply andb_true_iff in Hall as [Hx Hl].
  apply Z.eqb_eq in Hx. apply Nat.eqb_eq in Hl. now subst.
Qed.

Lemma numberToString_short_year (y : Z) :
  0 <= y <= 999 -> (String.length (numberToString y) <= 3)%nat.
Proof.
  intros Hy.
  assert (Hall : forallb
            (fun n => Nat.leb (String.length (numberToString (Z.of_nat n))) 3)
            (seq 0 1000) = true) by (vm_compute; reflexivity).
  rewrite forallb_forall in Hall.
  specialize (Hall (Z.to_nat y)). rewrite Z2Nat.id in Hall by lia.
  apply Nat.leb_le, Hall, in_seq. lia.
Qed.

Lemma two_digits (n : Z) (acc : Z) :
  0 <= n <= 99 ->
  digitsValue ("-" ++ padStart 2 "0" (numberToString n)) acc = Some (100 * acc + n) /\
  String.length (padStart 2 "0" (numberToString n)) = 2%nat.
Proof.
  intros Hn.
  assert (Hall : forallb
            (fun k => match padStart 2 "0" (numberToString (Z.of_nat k)) with
                      | String a (String b EmptyString) =>
                          match digitValue a, digitValue b with
                          | Some x, Some y => Z.eqb (10 * x + y) (Z.of_nat k)
                          | _, _ => false
                          end
                      | _ => false
                      end) (seq 0 100) = true) by (vm_compute; reflexivity).
  rewrite forallb_forall in Hall.
  specialize (Hall (Z.to_nat n)). rewrite Z2Nat.id in Hall by lia.
  assert (Hin : In (Z.to_nat n) (seq 0 100)) by (apply in_seq; lia).
  specialize (Hall Hin).
  destruct (padStart 2 "0" (numberToString n)) as [|a [|b [|? ?]]]; try discriminate.
  split; [|reflexivity].
  unfold digitValue in Hall.
  change ("-" ++ String a (String b "")) with (String "-" (String a (String b ""))).
  cbn [digitsValue].
  change (Nat.eqb (nat_of_ascii "-") 45) with true. cbv iota.
  destruct (Nat.eqb_spec (nat_of_ascii a) 45) as [Ea|Ea];
    [rewrite Ea in Hall; discriminate|].
  destruct (Nat.leb 48 (nat_of_ascii a) && Nat.leb (nat_of_ascii a) 57); [|discriminate].
  destruct (Nat.eqb_spec (nat_of_ascii b) 45) as [Eb|Eb];
    [rewrite Eb in Hall; discriminate|].
  destruct (Nat.leb 48 (nat_of_ascii b) && Nat.leb (nat_of_ascii b) 57); [|discriminate].
  apply Z.eqb_eq in Hall. f_equal. lia.
Qed.

(** X27: [formatDateToISOString] writes the year as it is, the month
    counted from 1 and the day, the last two padded to two digits.  For a
    year of four digits the text has ten characters and reads back as the
    number YYYYMMDD, so that two days have the same text only when they are
    the same day, and the later day the larger number; a year below 1000 is
    not padded and gives a shorter text. *)
Theorem formatDateToISOString_reads_back (date : DateParts) :
  0 <= getMonth date <= 11 ->
  1 <= getDate date <= 31 ->
  (1000 <= getFullYear date <= 9999 ->
     String.length (formatDateToISOString date) = 10%nat /\
     sampleDateValue (formatDateToISOString date) =
       Some (getFullYear date * 10000 + (getMonth date + 1) * 100 + getDate date)) /\
  (0 <= getFullYear date <= 999 ->
     (String.length (formatDateToISOString date) < 10)%nat).
Proof.
  intros Hm Hd. unfold formatDateToISOString. cbv zeta.
  assert (Hlen : forall s1 s2, String.length (s1 ++ s2) =
                               (String.length s1 + String.length s2)%nat).
  { intros s1 s2. induction s1 as [|a s1 IH]; [reflexivity|].
    change (String a s1 ++ s2) with (String a (s1 ++ s2)).
    cbn [String.length]. now rewrite IH. }
  destruct (two_digits (getMonth date + 1) 0 ltac:(lia)) as [_ Lm].
  destruct (two_digits (getDate date) 0 ltac:(lia)) as [_ Ld].
  split.
  - intros Hy. destruct (numberToString_year _ Hy) as [Vy Ly].
    split.
    + rewrite !Hlen, Ly, Lm, Ld. reflexivity.
    + unfold sampleDateValue.
      destruct (String.eqb_spec
                  (numberToString (getFullYear date) ++ "-" ++
                   padStart 2 "0" (numberToString (getMonth date + 1)) ++ "-" ++
                   padStart 2 "0" (numberToString (getDate date))) "") as [E|_].
      * apply (f_equal String.length) in E. rewrite !Hlen, Ly in E. discriminate.
      * rewrite digitsValue_app, Vy.
        change ("-" ++ padStart 2 "0" (numberToString (getMonth date + 1)) ++ "-" ++
                padStart 2 "0" (numberToString (getDate date)))
          with (("-" ++ padStart 2 "0" (numberToString (getMonth date + 1))) ++
                ("-" ++ padStart 2 "0" (numberToString (getDate date)))).
        rewrite digitsValue_app.
        rewrite (proj1 (two_digits (getMonth date + 1) (getFullYear date) ltac:(lia))).
        rewrite (proj1 (two_digits (getDate date) _ ltac:(lia))).
        f_equal. lia.
  - intros Hy. pose proof (numberToString_short_year _ Hy) as Ly.
    rewrite !Hlen, Lm, Ld. cbn [String.length]. lia.
Qed.

(** ** Rendering and loading *)

Section PageFacts.

Variable resetLabel : string.
Variable dateValue : string -> option Z.
Variable arraySort : (Task -> Task -> option Z) -> list Task -> list Task.

(** [sort] reorders the array it is given. *)
Hypothesis arraySort_permutation :
  forall cmp l, Permutation (arraySort cmp l) l.

Lemma renderTasks_cases (v : TaskView) (w : World) :
  renderTasks dateValue arraySort v w = w \/
  renderTasks dateValue arraySort v w =
    set_tasks (arraySort (compareTasks dateValue) (tasks w)) w.
Proof. unfold renderTasks. destruct (_ || _); [now left | now right]. Qed.


(** Rendering changes nothing but the order of the tasks. *)
Lemma renderTasks_frame (v : TaskView) (w : World) :
  exists l, Permutation l (tasks w) /\
            renderTasks dateValue arraySort v w = set_tasks l w.
Proof.
  destruct (renderTasks_cases v w) as [-> | ->].
  - exists (tasks w). split; [reflexivity | now rewrite set_tasks_same].
  - eexists. split; [apply arraySort_permutation | reflexivity].
Qed.

Lemma pageInvariant_reordered (l : list Task) (w : World) :
  Permutation l (tasks w) -> pageInvariant w -> pageInvariant (set_tasks l w).
Proof.
  intros Hp (Hs & Hnd & Hwf & Hst & Hti & Htr & Hth & Hu).
  split; [|split; [|split; [|exact (conj Hst (conj Hti (conj Htr (conj Hth Hu))))]]].
  - unfold storageFollowsState in *. project_fields.
    destruct (lastSaved (effects w)) as [d|].
    + destruct Hs as (Ht & Hrest). split; [|exact Hrest].
      project_fields. now rewrite Hp.
    + assert (Ht : tasks w = []) by exact (f_equal snap_tasks Hs).
      rewrite Ht in Hp. apply Permutation_sym, Permutation_nil in Hp. subst l.
      rewrite <- Ht. now rewrite set_tasks_same.
  - project_fields. apply (Permutation_NoDup (l := List.map id (tasks w))); [|exact Hnd].
    now apply Permutation_map, Permutation_sym.
  - project_fields. unfold tasksWellFormed in *.
    now apply (Permutation_Forall (Permutation_sym Hp)).
Qed.

Lemma pageInvariant_renderTasks (v : TaskView) (w : World) :
  pageInvariant w -> pageInvariant (renderTasks dateValue arraySort v w).
Proof.
  intros H. destruct (renderTasks_frame v w) as (l & Hp & ->).
  now apply pageInvariant_reordered.
Qed.

Lemma loadState_stored (d : Snapshot) (w : World) :
  snap_theme d <> "" ->
  snapshot (loadState (Parsed (storeDoc d)) w) = d.
Proof.
  intros Hth%String.eqb_neq. destruct d as [t n th g u s a].
  unfold loadState, storeDoc, snapshot. cbn in *. rewrite Hth.
  destruct (String.eqb n "") eqn:En; [apply String.eqb_eq in En; subst n|];
    (destruct (String.eqb u "") eqn:Eu; [apply String.eqb_eq in Eu; subst u|]);
    reflexivity.
Qed.

Lemma pageInvariant_initial : pageInvariant (initialWorld resetLabel).
Proof.
  split; [reflexivity|]. split; [constructor|]. split; [constructor|].
  split; [split; [simpl; lia | unfold streakInvariant; simpl; tauto]|].
  split; [reflexivity|].
  split; [unfold timeInRange; cbn [initialWorld pomodoro time mode];
          change (modeDuration "study") with 1500; lia|].
  split; [now left | reflexivity].
Qed.

(** The state after [loadState] on a fresh page, given what was saved. *)
Lemma pageInvariant_loaded (w : World) :
  pageInvariant w ->
  let w1 := loadState (storedBy w) (freshPage resetLabel w) in
  sameDocument (snapshot w1) w /\
  pomodoro w1 = mkPomodoro 1500 "study" false None /\
  liveIntervals w1 = [] /\
  effects w1 = effects w.
Proof.
  intros (Hs & _ & _ & _ & _ & _ & Hth & _) w1. subst w1.
  unfold storedBy, storageFollowsState in *.
  destruct (lastSaved (effects w)) as [d|] eqn:Hl.
  - assert (Hne : snap_theme d <> "").
    { destruct Hs as (_ & _ & Ht & _). rewrite Ht.
      destruct Hth as [-> | ->]; discriminate. }
    rewrite (loadState_stored d _ Hne).
    split; [exact Hs|]. repeat split.
  - cbn [loadState]. split; [|repeat split].
    change (snapshot (freshPage resetLabel w)) with (snapshot (initialWorld "")).
    rewrite <- Hs. apply sameDocument_snapshot.
Qed.

Lemma pageInvariant_initializeApp (c : Clock) (v : TaskView) (w : World) :
  pageInvariant w ->
  pageInvariant (initializeApp dateValue arraySort c v (storedBy w) (freshPage resetLabel w)).
Proof.
  intros H. destruct (pageInvariant_loaded w H) as (Hdoc & Hp & Hlive & He).
  destruct H as (_ & Hnd & Hwf & Hst & _ & _ & Hth & Hu).
  unfold initializeApp. cbv zeta.
  set (w1 := loadState (storedBy w) (freshPage resetLabel w)) in *.
  destruct Hdoc as (Ht & _ & Hth1 & _ & Hu1 & Hs1 & _). cbn [snapshot snap_tasks
    snap_theme snap_userName snap_streak] in *.
  apply pageInvariant_renderTasks.
  set (w2 := setPomodoroMode "study" w1).
  assert (Hsnap : snapshot w2 = snapshot w1) by apply snapshot_setPomodoroMode.
  assert (Hinv2 : timerInvariant w2).
  { apply timerInvariant_idle; [subst w2; now rewrite pomodoro_setPomodoroMode|].
    subst w2. apply liveIntervals_setPomodoroMode.
    apply timerInvariant_idle; [now rewrite Hp | exact Hlive]. }
  assert (Hrange2 : timeInRange w2).
  { apply (timeInRange_fresh "study" (mkPomodoro 0 "" false (intervalId (pomodoro w1)))).
    subst w2. now rewrite pomodoro_setPomodoroMode. }
  split; [apply storageFollowsState_saved; reflexivity|].
  split; [rewrite tasks_updateStreak, (same_snapshot_tasks _ _ Hsnap);
          apply (Permutation_NoDup (l := List.map id (tasks w))); [|exact Hnd];
          now apply Permutation_map, Permutation_sym|].
  split; [rewrite tasks_updateStreak, (same_snapshot_tasks _ _ Hsnap);
          unfold tasksWellFormed in *; now apply (Permutation_Forall (Permutation_sym Ht))|].
  split; [apply streakWellFormed_updateStreak;
          now rewrite (same_snapshot_streak _ _ Hsnap), Hs1|].
  split; [apply (timerInvariant_view w2); [now rewrite timerView_updateStreak | exact Hinv2]|].
  split; [apply (timeInRange_view w2); [now rewrite timerView_updateStreak | exact Hrange2]|].
  split.
  - unfold themeValid. now rewrite theme_updateStreak, (same_snapshot_theme _ _ Hsnap), Hth1.
  - now rewrite userName_updateStreak, (same_snapshot_userName _ _ Hsnap), Hu1.
Qed.

Lemma pageInvariant_saveNotes (text : string) (w : World) :
  pageInvariant w -> pageInvariant (saveNotes text w).
Proof.
  intros (_ & Hnd & Hwf & Hst & Hti & Htr & Hth & Hu).
  split; [now apply storageFollowsState_saved|].
  exact (conj Hnd (conj Hwf (conj Hst (conj Hti (conj Htr (conj Hth Hu)))))).
Qed.

Lemma pageInvariant_pageStep (p : PageEvent) (w : World) :
  pageInvariant w -> pageInvariant (pageStep resetLabel dateValue arraySort p w).
Proof.
  intros H. destruct p as [v e|v|text|c v]; cbn [pageStep].
  - destruct (rendersTasks e w);
      [apply pageInvariant_renderTasks|]; now apply pageInvariant_step.
  - now apply pageInvariant_renderTasks.
  - now apply pageInvariant_saveNotes.
  - now apply pageInvariant_initializeApp.
Qed.

Lemma pageInvariant_reachable (w : World) :
  PageReachable resetLabel dateValue arraySort w -> pageInvariant w.
Proof.
  intros (ps & ->). unfold runPage.
  generalize (initialWorld resetLabel), pageInvariant_initial.
  induction ps as [|p ps IH]; intros w0 H0; [exact H0|].
  cbn [fold_left]. apply IH. now apply pageInvariant_pageStep.
Qed.

(** With a status filter on, rendering leaves the state as it is; so a run
    of handlers alone is a run of the page. *)
Lemma run_as_page (evs : list Event) (w : World) :
  runPage resetLabel dateValue arraySort
    (List.map (Handled (mkTaskView "" "pending")) evs) w = run evs w.
Proof.
  revert w. induction evs as [|e evs IH]; intros w; [reflexivity|].
  unfold runPage, run in *. cbn [List.map fold_left]. rewrite <- IH. f_equal.
  cbn [pageStep]. now destruct (rendersTasks e w).
Qed.

Lemma run_PageReachable (evs : list Event) :
  PageReachable resetLabel dateValue arraySort (run evs (initialWorld resetLabel)).
Proof. eexists. symmetry. apply run_as_page. Qed.

Lemma page_timerInvariant (w : World) :
  PageReachable resetLabel dateValue arraySort w -> timerInvariant w.
Proof. intros H%pageInvariant_reachable. apply H. Qed.

Lemma page_tasksWellFormed (w : World) :
  PageReachable resetLabel dateValue arraySort w -> tasksWellFormed (tasks w).
Proof. intros H%pageInvariant_reachable. apply H. Qed.

Lemma page_NoDup_ids (w : World) :
  PageReachable resetLabel dateValue arraySort w -> List.NoDup (List.map id (tasks w)).
Proof. intros H%pageInvariant_reachable. apply H. Qed.

Lemma page_streakWellFormed (w : World) :
  PageReachable resetLabel dateValue arraySort w -> streakWellFormed (streak w).
Proof. intros H%pageInvariant_reachable. apply H. Qed.

Lemma page_themeValid (w : World) :
  PageReachable resetLabel dateValue arraySort w -> themeValid w.
Proof. intros H%pageInvariant_reachable. apply H. Qed.

(** X6: in every world the page reaches, over handlers, the in-place sort
    of the rendering and any number of loads from storage, the task ids are
    pairwise distinct and the count of the streak is 0 exactly when no
    completion date is recorded, and never negative. *)
Theorem page_keeps_invariants (w : World) :
  PageReachable resetLabel dateValue arraySort w ->
  List.NoDup (List.map id (tasks w)) /\
  (count (streak w) = 0 <-> lastCompletionDate (streak w) = None) /\
  0 <= count (streak w).
Proof.
  intros H. split; [now apply page_NoDup_ids|].
  destruct (page_streakWellFormed w H) as [Hpos Hinv]. split; [exact Hinv | exact Hpos].
Qed.








(** X10: in every world the page reaches at most one interval is live:
    exactly one, the one [intervalId] names, while the timer runs, and none
    while it does not; so while the timer does not run, no number of ticks
    changes anything. *)
Theorem one_live_interval (w : World) :
  PageReachable resetLabel dateValue arraySort w ->
  (length (liveIntervals w) <= 1)%nat /\
  (running (pomodoro w) = true ->
     exists h, liveIntervals w = [h] /\ intervalId (pomodoro w) = Some h) /\
  (running (pomodoro w) = false ->
     liveIntervals w = [] /\ forall n : N, ticks n w = w).
Proof.
  intros Hinv%page_timerInvariant. pose proof Hinv as H. unfold timerInvariant in H.
  destruct (running (pomodoro w)) eqn:Hr.
  - destruct H as (h & Hl & Hi). rewrite Hl. simpl.
    split; [lia|]. split; [eauto | discriminate].
  - rewrite H. simpl. split; [lia|]. split; [discriminate|].
    intros _. split; [reflexivity|].
    intros n. induction n as [|n IH] using N.peano_ind; [reflexivity|].
    rewrite ticks_succ, IH. now apply tick_idle.
Qed.

(** X11: in every world the page reaches the remaining time lies between 0
    and the duration of the current mode, and is at least 1 in study and
    break modes: the handlers never leave the countdown at 0 there. *)
Theorem countdown_in_range (w : World) :
  PageReachable resetLabel dateValue arraySort w ->
  0 <= time (pomodoro w) <= modeDuration (mode (pomodoro w)) /\
  (In (mode (pomodoro w)) ["study"; "short"; "long"] -> 1 <= time (pomodoro w)).
Proof.
  intros H%pageInvariant_reachable.
  destruct H as (_ & _ & _ & _ & _ & [Hrange Hpos] & _). split; [exact Hrange|].
  intros Hm. apply Hpos. simpl in Hm.
  destruct Hm as [<-|[<-|[<-|[]]]]; reflexivity.
Qed.

(** X12: a running timer with [t >= 1] seconds left only counts down for
    [t - 1] ticks and completes on tick [t], in whatever mode: the timer
    stops, the next mode is entered with its full duration, the reset button
    reads 'Next Mode', and the one 'Timer Done!' modal of the session is
    shown. *)
Theorem session_completes_after_remaining (w : World) :
  PageReachable resetLabel dateValue arraySort w ->
  running (pomodoro w) = true ->
  1 <= time (pomodoro w) ->
  let t := Z.to_N (time (pomodoro w)) in
  let next := fst (endTransition (mode (pomodoro w))) in
  (forall n : N, (n < t)%N ->
     ticks n w = set_time (time (pomodoro w) - Z.of_N n) w) /\
  pomodoro (ticks t w) =
    mkPomodoro (modeDuration next) next false (intervalId (pomodoro w)) /\
  liveIntervals (ticks t w) = [] /\
  resetBtnText (ticks t w) = "Next Mode" /\
  effects (ticks t w) =
    ShowModal (ModalTimerDone (snd (endTransition (mode (pomodoro w))))) :: effects w.
Proof.
  intros Hinv%page_timerInvariant Hrun Htime t next.
  assert (Hcount : forall n : N, (n < t)%N ->
            ticks n w = set_time (time (pomodoro w) - Z.of_N n) w).
  { intros n Hn. apply ticks_counting; [exact Hinv | exact Hrun | lia]. }
  split; [exact Hcount|].
  assert (Hlast : ticks t w = intervalCallback (set_time 1 w)).
  { replace t with (N.succ (N.pred t)) by lia.
    rewrite ticks_succ, Hcount by lia.
    replace (time (pomodoro w) - Z.of_N (N.pred t)) with 1 by lia.
    apply tick_running; [exact Hinv | exact Hrun]. }
  rewrite Hlast.
  apply (intervalCallback_completes (set_time 1 w)); [exact Hinv | exact Hrun|].
  cbn [set_time set_pomodoro pomodoro time]. lia.
Qed.

(** X13: pausing a running timer and starting it again resumes the
    session: the remaining time and the mode are kept, the timer runs, and
    exactly one interval, a new one, is live.  A second pause, or a second
    start, changes nothing. *)
Theorem pause_then_start_resumes (w : World) :
  PageReachable resetLabel dateValue arraySort w ->
  running (pomodoro w) = true ->
  let w' := startTimer (pauseTimer w) in
  time (pomodoro w') = time (pomodoro w) /\
  mode (pomodoro w') = mode (pomodoro w) /\
  running (pomodoro w') = true /\
  liveIntervals w' = [nextHandle w] /\
  intervalId (pomodoro w') = Some (nextHandle w) /\
  effects w' = effects w /\
  pauseTimer (pauseTimer w) = pauseTimer w /\
  startTimer w' = w'.
Proof.
  intros Hinv%page_timerInvariant Hrun w'.
  pose proof (liveIntervals_pauseTimer w Hinv) as Hlive.
  assert (Hidle : running (pomodoro (pauseTimer w)) = false)
    by now rewrite pomodoro_pauseTimer.
  assert (Hrun' : running (pomodoro w') = true)
    by (subst w'; now rewrite (startTimer_idle _ Hidle)).
  split; [|split; [|split; [|split; [|split; [|split; [|split]]]]]].
  - subst w'. rewrite (startTimer_idle _ Hidle). project_fields.
    now rewrite pomodoro_pauseTimer.
  - subst w'. rewrite (startTimer_idle _ Hidle). project_fields.
    now rewrite pomodoro_pauseTimer.
  - exact Hrun'.
  - subst w'. rewrite (startTimer_idle _ Hidle). project_fields.
    now rewrite Hlive, nextHandle_pauseTimer.
  - subst w'. rewrite (startTimer_idle _ Hidle). project_fields.
    now rewrite nextHandle_pauseTimer.
  - subst w'. rewrite (startTimer_idle _ Hidle). project_fields.
    apply effects_pauseTimer.
  - apply pauseTimer_twice.
  - now apply startTimer_running.
Qed.

(** X14: toggling the theme stops the countdown and discards the progress
    of the session: the timer is left not running, with the full duration of
    its mode, in the same mode.  In a world the page reaches no interval stays
    live, the theme is 'light' or 'dark', and a second toggle brings the first
    theme back. *)
Theorem toggleTheme_resets_countdown (w : World) :
  let w' := toggleTheme w in
  running (pomodoro w') = false /\
  time (pomodoro w') = modeDuration (mode (pomodoro w)) /\
  mode (pomodoro w') = mode (pomodoro w) /\
  theme w' = (if String.eqb (theme w) "light" then "dark" else "light") /\
  (PageReachable resetLabel dateValue arraySort w ->
     liveIntervals w' = [] /\
     (theme w = "light" \/ theme w = "dark") /\
     theme (toggleTheme w') = theme w).
Proof.
  intros w'.
  assert (Hp : pomodoro w' =
               mkPomodoro (modeDuration (mode (pomodoro w))) (mode (pomodoro w)) false
                 (intervalId (pomodoro w))).
  { subst w'. unfold toggleTheme, saveState. cbv zeta. project_fields.
    now rewrite pomodoro_setPomodoroMode. }
  rewrite Hp. cbn [running time mode].
  split; [reflexivity|]. split; [reflexivity|]. split; [reflexivity|].
  split; [apply theme_toggleTheme|].
  intros Hreach. split; [|split].
  - subst w'. unfold toggleTheme, saveState. cbv zeta. project_fields.
    apply liveIntervals_setPomodoroMode.
    exact (page_timerInvariant w Hreach).
  - exact (page_themeValid w Hreach).
  - subst w'. rewrite !theme_toggleTheme.
    destruct (page_themeValid w Hreach) as [-> | ->]; reflexivity.
Qed.

(** X15: in every world the page reaches the motivation text is chosen by
    one of the four branches on the count, never left at the text the
    variable starts with; it invites to a first task exactly when no
    completion date is recorded. *)
Theorem motivation_message_covers_streak (w : World) :
  PageReachable resetLabel dateValue arraySort w ->
  (forall n, updateMotivationMessage w <> MotivationDefault n) /\
  (updateMotivationMessage w = MotivationFirstTask <->
   lastCompletionDate (streak w) = None) /\
  (1 <= count (streak w) <= 4 ->
   updateMotivationMessage w = MotivationRun (count (streak w))) /\
  (5 <= count (streak w) <= 9 ->
   updateMotivationMessage w = MotivationMilestone (count (streak w))) /\
  (10 <= count (streak w) ->
   updateMotivationMessage w = MotivationMachine (count (streak w))).
Proof.
  intros [Hpos Hinv]%page_streakWellFormed.
  unfold streakInvariant in Hinv. unfold updateMotivationMessage. cbv zeta.
  destruct (Z.eqb_spec (count (streak w)) 0) as [H0|H0].
  - split; [discriminate|]. split; [tauto|]. repeat split; lia.
  - destruct (Z.ltb_spec 0 (count (streak w))); [|lia].
    destruct (Z.ltb_spec (count (streak w)) 5); cbn [andb].
    + split; [discriminate|]. split; [split; [discriminate | tauto]|].
      repeat split; (reflexivity || lia).
    + destruct (Z.leb_spec 5 (count (streak w))); [|lia].
      destruct (Z.ltb_spec (count (streak w)) 10); cbn [andb].
      * split; [discriminate|]. split; [split; [discriminate | tauto]|].
        repeat split; (reflexivity || lia).
      * destruct (Z.leb_spec 10 (count (streak w))); [|lia].
        split; [discriminate|]. split; [split; [discriminate | tauto]|].
        repeat split; (reflexivity || lia).
Qed.

(** X16: deleting the id of a task of a world the page reaches removes
    exactly one task; no task with that id is left, and every other task
    stays. *)
Theorem deleteTask_removes_one (i : Z) (w : World) :
  PageReachable resetLabel dateValue arraySort w ->
  In i (List.map id (tasks w)) ->
  (length (tasks (deleteTask i w)) + 1 = length (tasks w))%nat /\
  ~ In i (List.map id (tasks (deleteTask i w))) /\
  (forall t, In t (tasks w) -> id t <> i -> In t (tasks (deleteTask i w))).
Proof.
  intros Hnd%page_NoDup_ids Hin.
  unfold deleteTask, showModal, saveState. project_fields.
  split; [now apply length_filter_one|]. split.
  - intros H. apply List.in_map_iff in H as (t & E & Ht).
    apply List.filter_In in Ht as [_ Ht].
    apply negb_true_iff, Z.eqb_neq in Ht. contradiction.
  - intros t Ht Hne. apply List.filter_In. split; [exact Ht|].
    now apply negb_true_iff, Z.eqb_neq.
Qed.

(** X17: in every world the page reaches each task is pending or completed
    and has an id of 1 or more; so the pending count of the dashboard and the
    completed count of the progress tracker add up to the number of tasks. *)
Theorem task_statuses_partition (w : World) :
  PageReachable resetLabel dateValue arraySort w ->
  (forall t, In t (tasks w) ->
     (status t = "pending" \/ status t = "completed") /\ 1 <= id t) /\
  (pendingCount w + completedTasks w = totalTasks w)%nat /\
  (completedTasks w <= totalTasks w)%nat.
Proof.
  intros Hwf%page_tasksWellFormed.
  pose proof (status_counts _ Hwf) as Hc.
  unfold pendingCount, completedTasks, totalTasks.
  split; [|split; [exact Hc | lia]].
  unfold tasksWellFormed in Hwf. now rewrite List.Forall_forall in Hwf.
Qed.


(** X19: ids are not kept for good.  In a world the page reaches, deleting
    a task whose id is not the largest leaves the next id as it was, but
    deleting the task with the largest id lowers the next id to that id or
    below, so that a task added later can get the id of a deleted one. *)
Theorem deleted_ids_can_return (i : Z) (w : World) :
  PageReachable resetLabel dateValue arraySort w ->
  In i (List.map id (tasks w)) ->
  (i <> getNextTaskId w - 1 -> getNextTaskId (deleteTask i w) = getNextTaskId w) /\
  (i = getNextTaskId w - 1 -> getNextTaskId (deleteTask i w) <= i).
Proof.
  intros Hwf%page_tasksWellFormed Hin.
  assert (Hne : tasks w <> []) by (intros E; rewrite E in Hin; destruct Hin).
  destruct (getNextTaskId_spec w Hne) as [(tm & Htm & Hnext) Hmax].
  split; intros Hi.
  - assert (Htm' : In tm (tasks (deleteTask i w)))
      by (apply In_tasks_deleteTask; split; [exact Htm | lia]).
    assert (Hne' : tasks (deleteTask i w) <> [])
      by (intros E; rewrite E in Htm'; destruct Htm').
    destruct (getNextTaskId_spec _ Hne') as [(t' & Ht' & Hnext') Hmax'].
    apply In_tasks_deleteTask in Ht' as [Ht' _].
    specialize (Hmax _ Ht'). specialize (Hmax' _ Htm'). lia.
  - destruct (tasks (deleteTask i w)) as [|t0 l] eqn:E.
    + rewrite getNextTaskId_empty by exact E.
      unfold tasksWellFormed in Hwf. rewrite List.Forall_forall in Hwf.
      destruct (Hwf tm Htm). lia.
    + destruct (getNextTaskId_spec (deleteTask i w)) as [(t' & Ht' & ->) _];
        [rewrite E; discriminate|].
      apply In_tasks_deleteTask in Ht' as [Ht' Hne'].
      specialize (Hmax _ Ht'). lia.
Qed.


(** X21: the comparison function of [renderTasks] is antisymmetric: with
    the arguments exchanged its result is the opposite number, and it is
    [NaN] one way exactly when it is the other way. *)
Theorem compareTasks_antisymmetric (a b : Task) :
  compareTasks dateValue b a = option_map Z.opp (compareTasks dateValue a b).
Proof.
  assert (Hdate :
    match dateValue (deadline b), dateValue (deadline a) with
    | Some da, Some db => Some (da - db)
    | _, _ => None
    end =
    option_map Z.opp
      match dateValue (deadline a), dateValue (deadline b) with
      | Some da, Some db => Some (da - db)
      | _, _ => None
      end).
  { destruct (dateValue (deadline a)), (dateValue (deadline b)); cbn;
      try reflexivity. f_equal. lia. }
  unfold compareTasks. cbv zeta.
  destruct (String.eqb (status a) "pending") eqn:Ap;
    destruct (String.eqb (status b) "completed") eqn:Bc;
    destruct (String.eqb (status a) "completed") eqn:Ac;
    destruct (String.eqb (status b) "pending") eqn:Bp;
    cbn [andb]; try reflexivity;
    try (apply String.eqb_eq in Ap; apply String.eqb_eq in Ac; congruence);
    try (apply String.eqb_eq in Bp; apply String.eqb_eq in Bc; congruence);
    (destruct (priorityOrder (priority a)) as [x|k],
              (priorityOrder (priority b)) as [y|k']; try reflexivity;
     [destruct (Z.eqb_spec y x) as [E|E];
      [rewrite E, Z.eqb_refl; exact Hdate
      |destruct (Z.eqb_spec x y); [congruence | cbn; f_equal; lia]]
     |rewrite (String.eqb_sym k k'); destruct (String.eqb k' k);
      [exact Hdate | reflexivity]]).
Qed.




Lemma modeDuration_le (m : string) : modeDuration m <= 1500.
Proof. unfold modeDuration. split_tests; lia. Qed.

Lemma display_reads_back (t : Z) :
  0 <= t <= 1500 ->
  displayedSeconds (updateTimerDisplay (set_time t freshWorld)) = Some t.
Proof.
  intros Ht.
  assert (Hall : forallb
            (fun n => match displayedSeconds
                              (updateTimerDisplay (set_time (Z.of_nat n) freshWorld)) with
                      | Some x => Z.eqb x (Z.of_nat n)
                      | None => false
                      end) (seq 0 1501) = true) by (vm_compute; reflexivity).
  rewrite forallb_forall in Hall.
  specialize (Hall (Z.to_nat t)). rewrite Z2Nat.id in Hall by lia.
  assert (Hin : In (Z.to_nat t) (seq 0 1501)) by (apply in_seq; lia).
  specialize (Hall Hin).
  destruct (displayedSeconds _) as [x|]; [|discriminate].
  apply Z.eqb_eq in Hall. now subst.
Qed.

(** X23: in every world the page reaches the timer display is five
    characters [MM:SS] that read back as the remaining time of the state:
    two digits of minutes, a colon, two digits of seconds. *)
Theorem timer_display_reads_back (w : World) :
  PageReachable resetLabel dateValue arraySort w ->
  displayedSeconds (updateTimerDisplay w) = Some (time (pomodoro w)) /\
  String.length (updateTimerDisplay w) = 5%nat.
Proof.
  intros H%pageInvariant_reachable.
  destruct H as (_ & _ & _ & _ & _ & [Hrange _] & _).
  pose proof (modeDuration_le (mode (pomodoro w))) as Hle.
  assert (Hd : displayedSeconds (updateTimerDisplay w) = Some (time (pomodoro w))).
  { change (updateTimerDisplay w)
      with (updateTimerDisplay (set_time (time (pomodoro w)) freshWorld)).
    apply display_reads_back. lia. }
  split; [exact Hd|].
  unfold displayedSeconds in Hd.
  destruct (updateTimerDisplay w) as [|m1 [|m2 [|cl [|s1 [|s2 [|x r]]]]]];
    try discriminate. reflexivity.
Qed.


(** ** The order and the search of the task list *)

Lemma key_eq (s1 p1 d1 s2 p2 d2 : Z) :
  (s1, p1, d1) = (s2, p2, d2) <-> s1 = s2 /\ p1 = p2 /\ d1 = d2.
Proof. split; [intros [= -> -> ->]; auto | intros (-> & -> & ->); reflexivity]. Qed.

(** X25: on tasks it can place, the comparison function of [renderTasks] is
    the lexicographic order by status (pending before completed), then
    priority (higher first), then deadline (earlier first): it always gives a
    number, negative exactly when the first task comes before the second, and
    0 exactly when the two have the same key. *)
Theorem compareTasks_is_lexicographic (a b : Task) (ka kb : Z * Z * Z) :
  sortKey dateValue a = Some ka ->
  sortKey dateValue b = Some kb ->
  exists d, compareTasks dateValue a b = Some d /\
            (d < 0 <-> keyLt ka kb) /\
            (d = 0 <-> ka = kb) /\
            (0 < d <-> keyLt kb ka).
Proof.
  unfold sortKey, compareTasks. cbv zeta.
  destruct (priorityOrder (priority a)) as [pa|]; [|discriminate].
  destruct (priorityOrder (priority b)) as [pb|];
    [|destruct (dateValue (deadline a)); discriminate].
  destruct (dateValue (deadline a)) as [da|]; [|discriminate].
  destruct (dateValue (deadline b)) as [db|]; [|discriminate].
  assert (Hlit : forall t : Task,
            (status t = "pending" \/ status t = "completed") \/
            (String.eqb (status t) "pending" = false /\
             String.eqb (status t) "completed" = false)).
  { intros t. destruct (String.eqb_spec (status t) "pending"); [now left; left|].
    destruct (String.eqb_spec (status t) "completed"); [now left; right | now right]. }
  destruct (Hlit a) as [[Ea|Ea]|[Ea1 Ea2]];
    [rewrite Ea | rewrite Ea | rewrite Ea1, Ea2; discriminate];
    (destruct (Hlit b) as [[Eb|Eb]|[Eb1 Eb2]];
     [rewrite Eb | rewrite Eb | rewrite Eb1, Eb2; discriminate]);
    cbn [String.eqb Ascii.eqb Bool.eqb andb]; intros [= <-] [= <-]; cbn [keyLt].
  all: try (destruct (Z.eqb_spec pb pa) as [E|E]; cbn [negb]).
  all: eexists; (split; [reflexivity|]).
  all: rewrite key_eq; lia.
Qed.








End PageFacts.

(** ** The samples *)

Lemma insertSorted_permutation (cmp : Task -> Task -> option Z) (x : Task) (l : list Task) :
  Permutation (insertSorted cmp x l) (x :: l).
Proof.
  induction l as [|y l IH]; cbn [insertSorted]; [reflexivity|].
  destruct (cmp x y) as [d|]; [|reflexivity].
  destruct (Z.leb d 0); [reflexivity|].
  rewrite IH. apply perm_swap.
Qed.

Lemma insertionSort_permutation (cmp : Task -> Task -> option Z) (l : list Task) :
  Permutation (insertionSort cmp l) l.
Proof.
  unfold insertionSort. induction l as [|x l IH]; cbn [fold_right]; [reflexivity|].
  rewrite insertSorted_permutation. now constructor.
Qed.

Lemma samplePage_reachable : PageReachable "Reset" sampleDateValue insertionSort samplePage.
Proof. exists samplePageEvents. reflexivity. Qed.

Lemma reorderedPage_reachable :
  PageReachable "Reset" sampleDateValue insertionSort reorderedPage.
Proof. exists samplePageStart. reflexivity. Qed.

Lemma samplePage_running : running (pomodoro samplePage) = true.
Proof. vm_compute. reflexivity. Qed.

Lemma samplePage_time : time (pomodoro samplePage) = 1498.
Proof. vm_compute. reflexivity. Qed.

Lemma page_keeps_invariants_witness :
  List.NoDup (List.map id (tasks samplePage)) /\
  (count (streak samplePage) = 0 <-> lastCompletionDate (streak samplePage) = None) /\
  0 <= count (streak samplePage).
Proof.
  exact (page_keeps_invariants "Reset" sampleDateValue insertionSort
           insertionSort_permutation samplePage samplePage_reachable).
Defined.




Lemma one_live_interval_witness :
  (length (liveIntervals samplePage) <= 1)%nat /\
  (exists h, liveIntervals samplePage = [h] /\ intervalId (pomodoro samplePage) = Some h) /\
  (forall n : N, ticks n reorderedPage = reorderedPage).
Proof.
  destruct (one_live_interval "Reset" sampleDateValue insertionSort
              insertionSort_permutation samplePage samplePage_reachable)
    as (Hlen & Hrun & _).
  destruct (one_live_interval "Reset" sampleDateValue insertionSort
              insertionSort_permutation reorderedPage reorderedPage_reachable)
    as (_ & _ & Hidle).
  split; [exact Hlen|]. split; [exact (Hrun samplePage_running)|].
  apply Hidle. vm_compute. reflexivity.
Defined.

Lemma countdown_in_range_witness :
  0 <= time (pomodoro samplePage) <= modeDuration (mode (pomodoro samplePage)) /\
  1 <= time (pomodoro samplePage).
Proof.
  destruct (countdown_in_range "Reset" sampleDateValue insertionSort
              insertionSort_permutation samplePage samplePage_reachable) as (Hr & Hp).
  split; [exact Hr|]. apply Hp. vm_compute. tauto.
Defined.

Lemma session_completes_after_remaining_witness :
  ticks 1497 samplePage = set_time 1 samplePage /\
  pomodoro (ticks 1498 samplePage) = mkPomodoro 300 "short" false (Some 1%nat) /\
  liveIntervals (ticks 1498 samplePage) = [] /\
  resetBtnText (ticks 1498 samplePage) = "Next Mode".
Proof.
  assert (Htime : 1 <= time (pomodoro samplePage)) by (rewrite samplePage_time; lia).
  destruct (session_completes_after_remaining "Reset" sampleDateValue insertionSort
              insertionSort_permutation samplePage samplePage_reachable
              samplePage_running Htime) as (Hcount & Hp & Hl & Hb & _).
  rewrite samplePage_time in Hcount, Hp, Hl, Hb.
  change (Z.to_N 1498) with 1498%N in Hcount, Hp, Hl, Hb.
  split; [apply (Hcount 1497%N); lia|].
  split; [rewrite Hp; vm_compute; reflexivity|].
  split; [exact Hl | exact Hb].
Defined.

Lemma pause_then_start_resumes_witness :
  time (pomodoro (startTimer (pauseTimer samplePage))) = time (pomodoro samplePage) /\
  running (pomodoro (startTimer (pauseTimer samplePage))) = true /\
  liveIntervals (startTimer (pauseTimer samplePage)) = [nextHandle samplePage] /\
  pauseTimer (pauseTimer samplePage) = pauseTimer samplePage.
Proof.
  destruct (pause_then_start_resumes "Reset" sampleDateValue insertionSort
              insertionSort_permutation samplePage samplePage_reachable
              samplePage_running) as (Ht & _ & Hr & Hl & _ & _ & Hp & _).
  exact (conj Ht (conj Hr (conj Hl Hp))).
Defined.

Lemma toggleTheme_resets_countdown_witness :
  running (pomodoro (toggleTheme samplePage)) = false /\
  time (pomodoro (toggleTheme samplePage)) = 1500 /\
  theme (toggleTheme samplePage) = "dark" /\
  liveIntervals (toggleTheme samplePage) = [] /\
  theme (toggleTheme (toggleTheme samplePage)) = theme samplePage.
Proof.
  destruct (toggleTheme_resets_countdown "Reset" sampleDateValue insertionSort
              insertionSort_permutation samplePage) as (Hr & Ht & _ & Hth & Hreach).
  destruct (Hreach samplePage_reachable) as (Hl & _ & Hback).
  split; [exact Hr|].
  split; [rewrite Ht; vm_compute; reflexivity|].
  split; [rewrite Hth; vm_compute; reflexivity|].
  split; [exact Hl | exact Hback].
Defined.

Lemma motivation_message_covers_streak_witness :
  updateMotivationMessage samplePage = MotivationRun (count (streak samplePage)) /\
  updateMotivationMessage samplePage <> MotivationFirstTask.
Proof.
  destruct (motivation_message_covers_streak "Reset" sampleDateValue insertionSort
              insertionSort_permutation samplePage samplePage_reachable)
    as (_ & Hfirst & Hrun & _).
  split.
  - apply Hrun. vm_compute. split; discriminate.
  - intros H. apply Hfirst in H. vm_compute in H. discriminate.
Defined.

Lemma deleteTask_removes_one_witness :
  (length (tasks (deleteTask 2 samplePage)) + 1 = length (tasks samplePage))%nat /\
  ~ In 2 (List.map id (tasks (deleteTask 2 samplePage))).
Proof.
  assert (Hin : In 2 (List.map id (tasks samplePage))) by (vm_compute; tauto).
  destruct (deleteTask_removes_one "Reset" sampleDateValue insertionSort
              insertionSort_permutation 2 samplePage samplePage_reachable Hin)
    as (Hlen & Hout & _).
  exact (conj Hlen Hout).
Defined.

Lemma task_statuses_partition_witness :
  (pendingCount samplePage + completedTasks samplePage = totalTasks samplePage)%nat /\
  (completedTasks samplePage <= totalTasks samplePage)%nat.
Proof.
  apply (task_statuses_partition "Reset" sampleDateValue insertionSort
           insertionSort_permutation samplePage samplePage_reachable).
Defined.


Lemma deleted_ids_can_return_witness :
  getNextTaskId (deleteTask 1 samplePage) = getNextTaskId samplePage /\
  getNextTaskId (deleteTask 3 samplePage) <= 3.
Proof.
  assert (H1 : In 1 (List.map id (tasks samplePage))) by (vm_compute; tauto).
  assert (H3 : In 3 (List.map id (tasks samplePage))) by (vm_compute; tauto).
  split.
  - apply (deleted_ids_can_return "Reset" sampleDateValue insertionSort
             insertionSort_permutation 1 samplePage samplePage_reachable H1).
    vm_compute. discriminate.
  - apply (deleted_ids_can_return "Reset" sampleDateValue insertionSort
             insertionSort_permutation 3 samplePage samplePage_reachable H3).
    vm_compute. reflexivity.
Defined.



Lemma timer_display_reads_back_witness :
  displayedSeconds (updateTimerDisplay samplePage) = Some (time (pomodoro samplePage)) /\
  String.length (updateTimerDisplay samplePage) = 5%nat.
Proof.
  exact (timer_display_reads_back "Reset" sampleDateValue insertionSort
           insertionSort_permutation samplePage samplePage_reachable).
Defined.


Lemma compareTasks_is_lexicographic_witness :
  exists d, compareTasks sampleDateValue sampleTask (setStatus "completed" sampleTask) = Some d /\
            d < 0.
Proof.
  assert (Ha : sortKey sampleDateValue sampleTask = Some (0, -3, 20240312))
    by (vm_compute; reflexivity).
  assert (Hb : sortKey sampleDateValue (setStatus "completed" sampleTask) =
               Some (1, -3, 20240312)) by (vm_compute; reflexivity).
  destruct (compareTasks_is_lexicographic sampleDateValue _ _ _ _ Ha Hb)
    as (d & Hd & Hlt & _).
  exists d. split; [exact Hd|]. apply Hlt. cbn. lia.
Defined.


Lemma formatDateToISOString_reads_back_witness :
  String.length (formatDateToISOString (mkDateParts 2024 2 10)) = 10%nat /\
  sampleDateValue (formatDateToISOString (mkDateParts 2024 2 10)) = Some 20240310 /\
  (String.length (formatDateToISOString (mkDateParts 987 2 10)) < 10)%nat.
Proof.
  assert (Hm : 0 <= 2 <= 11) by lia.
  assert (Hd : 1 <= 10 <= 31) by lia.
  destruct (formatDateToISOString_reads_back (mkDateParts 2024 2 10) Hm Hd) as [H _].
  destruct (formatDateToISOString_reads_back (mkDateParts 987 2 10) Hm Hd) as [_ H'].
  cbn [getFullYear getMonth getDate] in H, H'.
  destruct H as [Hl Hv]; [lia|].
  split; [exact Hl|]. split; [exact Hv | apply H'; lia].
Defined.
